(** * AiChat: the execution gateway and the WebSocket session client

    A shallow embedding of [chat_executor.py] and [ws_client.py], and the
    properties of the two that the design document states; then the
    modules around them ([chat_modes.py], [chat_history.py],
    [chat_config.py], the [ChatBot] of [__init__.py] and the message
    handler of [run.py]) with properties read off their code.

    Python values are modelled as follows.
    - [str] is a list of Unicode code points, so that [len], slicing and
      substring tests count code points as Python does.
    - An exception is a class tag with its message; a computation that may
      raise returns an [outcome].
    - Code with side effects (the diagnostic log, the callback, the socket)
      is written in a state monad over an explicit world, with a Python-like
      [try ... except] combinator. *)

From Stdlib Require Import String Ascii Bool Arith NArith ZArith Lia DecimalString List.
Import ListNotations.

Set Implicit Arguments.

(* ================================================================== *)
(** * Python values *)
(* ================================================================== *)

Module Py.

(** A code point; a Python [str] is the list of its code points. *)
Definition codepoint := N.
Definition pystr := list codepoint.

(** Literals are written as UTF-8 source text and decoded to code points.
    [need] is the number of continuation bytes still expected and [acc] the
    bits collected so far. *)
Fixpoint utf8_decode (need : nat) (acc : N) (bs : list N) : pystr :=
  match bs with
  | [] => []
  | b :: rest =>
      match need with
      | O =>
          if (b <? 128)%N then b :: utf8_decode 0 0%N rest
          else if (b <? 224)%N then utf8_decode 1 (N.land b 31) rest
          else if (b <? 240)%N then utf8_decode 2 (N.land b 15) rest
          else utf8_decode 3 (N.land b 7) rest
      | S k =>
          let acc' := (acc * 64 + N.land b 63)%N in
          match k with
          | O => acc' :: utf8_decode 0 0%N rest
          | S _ => utf8_decode k acc' rest
          end
      end
  end.

Definition u (s : string) : pystr :=
  utf8_decode 0 0%N (map N_of_ascii (list_ascii_of_string s)).
Arguments u : simpl never.

(** The parts of the Python runtime's Unicode tables that the program
    relies on.  They belong to the interpreter, not to the repository, so
    the development is parametric in them. *)
Class Unicode := {
  (** [str.isspace] on a single code point: what [str.strip()] removes. *)
  isspace : codepoint -> bool;
  (** [str.lower]. *)
  lower : pystr -> pystr;
  (** comparison of a pattern character with a subject character under
      [re.IGNORECASE]. *)
  ieq : codepoint -> codepoint -> bool
}.

(** ** Exceptions and outcomes *)

(** The exception classes the two modules distinguish in their [except]
    clauses.  [OtherException] stands for any other subclass of
    [Exception]. *)
Inductive exn_class :=
| TimeoutExpired        (* subprocess.TimeoutExpired *)
| FileNotFoundError
| FutureTimeoutError    (* concurrent.futures.TimeoutError *)
| JSONDecodeError       (* json.JSONDecodeError *)
| RuntimeError
| OtherException.

Record exn := mk_exn { exn_cls : exn_class; exn_str : pystr }.

Inductive outcome (A : Type) :=
| Return (a : A)
| Raise (e : exn).
Arguments Return {A} a.
Arguments Raise {A} e.

(** ** Effects: state passing with exceptions

    A raised exception keeps the effects performed before it. *)
Definition M (W A : Type) := W -> outcome A * W.

Definition ret {W A} (a : A) : M W A := fun w => (Return a, w).

Definition raise {W A} (e : exn) : M W A := fun w => (Raise e, w).

Definition bind {W A B} (m : M W A) (k : A -> M W B) : M W B :=
  fun w =>
    match m w with
    | (Return a, w') => k a w'
    | (Raise e, w') => (Raise e, w')
    end.

(** [try: body / except ...: handler]: the handler sees the exception raised
    by the body; what the handler itself raises propagates. *)
Definition try_except {W A} (body : M W A) (handler : exn -> M W A) : M W A :=
  fun w =>
    match body w with
    | (Return a, w') => (Return a, w')
    | (Raise e, w') => handler e w'
    end.

Definition modify {W} (f : W -> W) : M W unit := fun w => (Return tt, f w).

Definition gets {W A} (f : W -> A) : M W A := fun w => (Return (f w), w).

(** ** String operations *)

Fixpoint startswith (p s : pystr) : bool :=
  match p, s with
  | [], _ => true
  | _ :: _, [] => false
  | a :: p', b :: s' => (a =? b)%N && startswith p' s'
  end.

(** [p in s] *)
Fixpoint contains (p s : pystr) : bool :=
  startswith p s ||
  match s with
  | [] => false
  | _ :: tl => contains p tl
  end.

(** [s.find(p)], with [None] for -1. *)
Fixpoint find (p s : pystr) : option nat :=
  if startswith p s then Some 0
  else match s with
       | [] => None
       | _ :: tl => option_map S (find p tl)
       end.

Section WithUnicode.
Context {U : Unicode}.

Fixpoint lstrip (s : pystr) : pystr :=
  match s with
  | [] => []
  | c :: tl => if isspace c then lstrip tl else s
  end.

Definition rstrip (s : pystr) : pystr := rev (lstrip (rev s)).

(** [s.strip()] *)
Definition strip (s : pystr) : pystr := rstrip (lstrip s).

(** Does [s] start with the literal [p], compared under [re.IGNORECASE]? *)
Fixpoint istartswith (p s : pystr) : bool :=
  match p, s with
  | [], _ => true
  | _ :: _, [] => false
  | a :: p', b :: s' => ieq a b && istartswith p' s'
  end.

End WithUnicode.

(** ** Regular-expression substitution

    A compiled pattern is represented by its matcher: [pat s] is the length
    of the match of the pattern anchored at the head of [s], if there is
    one.  [re_sub pat s] is [pat.sub('', s)]: the subject is scanned from the
    left, a match is dropped and the scan resumes behind it, any other
    character is kept.  [skip] counts the characters of the current match
    that remain to be dropped.  Both patterns of the program only match
    non-empty text. *)
Definition pattern := pystr -> option nat.

Fixpoint re_sub_from (pat : pattern) (skip : nat) (s : pystr) : pystr :=
  match s with
  | [] => []
  | c :: tl =>
      match skip with
      | S k => re_sub_from pat k tl
      | O =>
          match pat s with
          | Some (S n) => re_sub_from pat n tl
          | _ => c :: re_sub_from pat 0 tl
          end
      end
  end.

Definition re_sub (pat : pattern) (s : pystr) : pystr := re_sub_from pat 0 s.

(** Does the pattern match anywhere in [s]? *)
Fixpoint re_search (pat : pattern) (s : pystr) : bool :=
  match s with
  | [] => false
  | _ :: tl =>
      match pat s with
      | Some (S _) => true
      | _ => re_search pat tl
      end
  end.

(** Can the text be written with [encoding='utf-8']?  A surrogate cannot. *)
Definition utf8_encodable (s : pystr) : bool :=
  forallb (fun c => ((c <? 55296) || (57343 <? c) && (c <=? 1114111))%N) s.

(** ** A runtime for concrete runs

    [basic_isspace] lists the code points for which [str.isspace] holds.
    [basic_lower_cp] is [str.lower] on ASCII; text of a caseless script
    (such as Chinese) is left as it is, as Python leaves it.  Under
    [re.IGNORECASE] a letter of the pattern of this program matches its two
    ASCII forms and nothing else, so comparing lower-case forms is the
    comparison Python makes for it. *)
Definition basic_isspace (c : codepoint) : bool :=
  ((9 <=? c) && (c <=? 13) || (28 <=? c) && (c <=? 32) ||
   (c =? 133) || (c =? 160) || (c =? 5760) ||
   (8192 <=? c) && (c <=? 8202) || (c =? 8232) || (c =? 8233) ||
   (c =? 8239) || (c =? 8287) || (c =? 12288))%N.

Definition basic_lower_cp (c : codepoint) : codepoint :=
  if ((65 <=? c) && (c <=? 90))%N then (c + 32)%N else c.

Definition basic_unicode : Unicode :=
  {| isspace := basic_isspace;
     lower := map basic_lower_cp;
     ieq := fun a b => (basic_lower_cp a =? basic_lower_cp b)%N |}.

End Py.

Import Py.

Declare Scope py_scope.
Delimit Scope py_scope with py.
Notation "x <- m ;; k" := (bind m (fun x => k))
  (at level 61, m at next level, right associativity) : py_scope.
Notation "m ;;; k" := (bind m (fun _ => k))
  (at level 61, right associativity) : py_scope.

Local Open Scope py_scope.

(* ================================================================== *)
(** * chat_executor.py *)
(* ================================================================== *)

Module ChatExecutor.

(** chat_config.py *)
Definition AI_COMMAND_TIMEOUT : Z := 60.
Definition MAX_WORKER_THREADS : nat := 10.

(** The thread a statement runs on: the one that called into the executor,
    or one of the threads of [self.executor]. *)
Inductive thread := CallingThread | PoolThread.

(** One [f.write] of [_log_error] to the diagnostic log; a block is the
    four of them, in this order. *)
Inductive log_line :=
| Header (timestamp error_type : pystr) (user_id : Z)
                                          (* [ts] [ERROR] Type: ..., User: ... *)
| PromptLine (prompt_head : pystr)        (* Prompt: prompt[:200]... *)
| ErrorLine (error_msg : pystr)           (* Error: ... *)
| Separator.                              (* forty dashes *)

(** The text of a line that comes from outside [_log_error]. *)
Definition line_text (l : log_line) : pystr :=
  match l with
  | Header timestamp error_type _ => timestamp ++ error_type
  | PromptLine prompt_head => prompt_head
  | ErrorLine error_msg => error_msg
  | Separator => []
  end.

(** One invocation of the callback handed to [execute_chat_async]. *)
Record call := {
  call_thread : thread;
  call_result : pystr;
  call_user : Z
}.

(** How [future.result(timeout=...)] ends: the submitted work finished in
    time, the wait ran into its deadline (the work is still queued or
    running then, and what it does happens after the call), or unwrapping
    the result failed (for instance because the future was cancelled). *)
Inductive wait_outcome :=
| Completes
| DeadlineElapses
| Faults (e : exn).

Record World := {
  (* configuration *)
  DEBUG_LOG_PATH : option pystr;
  (* environment *)
  subprocess_run : list pystr -> outcome pystr;  (* argv to captured stdout *)
  future_wait : wait_outcome;
  clock : pystr;                (* datetime.now(), formatted *)
  disk_ok : bool;               (* can the log file be opened for appending? *)
  (* state *)
  debug_log : list log_line;    (* what has been written to the log file *)
  pool_shutdown : bool;
  running_on : thread;
  (* observations *)
  waits : list (thread * Z);    (* blocking waits: who waited, with what timeout *)
  calls : list call             (* callback invocations, oldest first *)
}.

Definition set_debug_log (l : list log_line) (w : World) : World :=
  {| DEBUG_LOG_PATH := DEBUG_LOG_PATH w; subprocess_run := subprocess_run w;
     future_wait := future_wait w; clock := clock w; disk_ok := disk_ok w;
     debug_log := l; pool_shutdown := pool_shutdown w;
     running_on := running_on w; waits := waits w; calls := calls w |}.

Definition set_pool_shutdown (b : bool) (w : World) : World :=
  {| DEBUG_LOG_PATH := DEBUG_LOG_PATH w; subprocess_run := subprocess_run w;
     future_wait := future_wait w; clock := clock w; disk_ok := disk_ok w;
     debug_log := debug_log w; pool_shutdown := b;
     running_on := running_on w; waits := waits w; calls := calls w |}.

Definition set_running_on (t : thread) (w : World) : World :=
  {| DEBUG_LOG_PATH := DEBUG_LOG_PATH w; subprocess_run := subprocess_run w;
     future_wait := future_wait w; clock := clock w; disk_ok := disk_ok w;
     debug_log := debug_log w; pool_shutdown := pool_shutdown w;
     running_on := t; waits := waits w; calls := calls w |}.

Definition set_waits (l : list (thread * Z)) (w : World) : World :=
  {| DEBUG_LOG_PATH := DEBUG_LOG_PATH w; subprocess_run := subprocess_run w;
     future_wait := future_wait w; clock := clock w; disk_ok := disk_ok w;
     debug_log := debug_log w; pool_shutdown := pool_shutdown w;
     running_on := running_on w; waits := l; calls := calls w |}.

Definition set_calls (l : list call) (w : World) : World :=
  {| DEBUG_LOG_PATH := DEBUG_LOG_PATH w; subprocess_run := subprocess_run w;
     future_wait := future_wait w; clock := clock w; disk_ok := disk_ok w;
     debug_log := debug_log w; pool_shutdown := pool_shutdown w;
     running_on := running_on w; waits := waits w; calls := l |}.

(** A callback is any deterministic callable: what it does may depend on
    the invocations it has already received.  It returns or raises. *)
Definition Callback := list call -> pystr -> Z -> outcome unit.

(** ** Constants of the module and of [ChatExecutor.__init__] *)

Definition EXECUTION_INFO_OPEN : pystr :=
  Eval vm_compute in u "<Execution Info>".
Definition EXECUTION_INFO_CLOSE : pystr :=
  Eval vm_compute in u "</Execution Info>".
Definition OAUTH2_NOTICE : pystr :=
  Eval vm_compute in u "OAuth2 令牌刷新成功".

Definition friendly_responses : list pystr :=
  Eval vm_compute in
  [ u "抱歉，我有些迷糊，能再说一遍吗？";
    u "嗯... 刚才好像走神了，能重复一下吗？";
    u "我没太明白，换种说法试试？";
    u "抱歉，我没听清楚，能再说一次吗？";
    u "这个问题有点复杂，我需要想想..." ].

(** [self.friendly_responses[i]] for the indices the code uses. *)
Definition friendly_response (i : nat) : pystr := nth i friendly_responses [].
Arguments friendly_response : simpl never.

Definition NOT_INSTALLED : pystr :=
  Eval vm_compute in u "AI命令未安装，请检查配置。".
Definition ASYNC_TIMEOUT : pystr :=
  Eval vm_compute in u "处理超时，请稍后再试。".
Definition ASYNC_FAILURE : pystr :=
  Eval vm_compute in u "抱歉，出了点问题，请重试。".

(** The fixed strings [execute_chat] answers with in place of the backend's
    output. *)
Definition fallback_strings : list pystr := friendly_responses ++ [NOT_INSTALLED].

Definition error_keywords : list pystr :=
  Eval vm_compute in
  [ u "error"; u "错误"; u "failed"; u "失败"; u "exception"; u "异常" ].

(** [re.compile(r'<Execution Info>.*?</Execution Info>', re.DOTALL)]: the
    opening marker, then as little as possible, any character included, up
    to the first closing marker behind it. *)
Definition EXECUTION_INFO_PATTERN : pattern :=
  fun s =>
    if startswith EXECUTION_INFO_OPEN s then
      option_map
        (fun k => length EXECUTION_INFO_OPEN + k + length EXECUTION_INFO_CLOSE)
        (find EXECUTION_INFO_CLOSE (skipn (length EXECUTION_INFO_OPEN) s))
    else None.

Section Executor.
Context {U : Unicode}.

(** [re.compile(r'OAuth2 令牌刷新成功', re.IGNORECASE)] *)
Definition oauth2_pattern : pattern :=
  fun s => if istartswith OAUTH2_NOTICE s then Some (length OAUTH2_NOTICE) else None.

(** [open(DEBUG_LOG_PATH, 'a', encoding='utf-8')] *)
Definition open_log : M World unit :=
  fun w =>
    if disk_ok w then (Return tt, w)
    else (Raise (mk_exn OtherException (u "cannot open the log file")), w).

(** One [f.write(...)] inside the [with] block.  The text is encoded when
    it is written: a line that cannot be encoded raises and is not
    written, and what was written before it reaches the file when the
    [with] block closes it. *)
Definition write_log (l : log_line) : M World unit :=
  fun w =>
    if utf8_encodable (line_text l) then
      (Return tt, set_debug_log (debug_log w ++ [l]) w)
    else (Raise (mk_exn OtherException (u "codec can't encode character")), w).

Definition _log_error (error_type error_msg : pystr) (user_id : Z) (prompt : pystr)
  : M World unit :=
  path <- gets DEBUG_LOG_PATH ;;
  match path with
  | None | Some [] => ret tt                   (* if not DEBUG_LOG_PATH: return *)
  | Some _ =>
      try_except
        (timestamp <- gets clock ;;
         open_log ;;;
         write_log (Header timestamp error_type user_id) ;;;
         write_log (PromptLine (firstn 200 prompt)) ;;;
         write_log (ErrorLine error_msg) ;;;
         write_log Separator)
        (fun _ => ret tt)                      (* except: pass *)
  end.

(** The command line of the default backend. *)
Definition argv (prompt : pystr) : list pystr := [u "iflow"; u "-p"; prompt].

Definition _call_ai (prompt : pystr) : M World pystr :=
  run <- gets subprocess_run ;;
  stdout <- (fun w => (run (argv prompt), w)) ;;
  ret (strip stdout).

(** The cleaning steps applied to what [_call_ai] returns. *)
Definition clean (output : pystr) : pystr :=
  let output := strip (re_sub EXECUTION_INFO_PATTERN output) in
  strip (re_sub oauth2_pattern output).

(** [any(kw in output.lower() for kw in error_keywords)] *)
Definition has_error_keyword (output : pystr) : bool :=
  existsb (fun kw => contains kw (lower output)) error_keywords.

Definition execute_chat (prompt : pystr) (user_id : Z) : M World pystr :=
  try_except
    (output <- _call_ai prompt ;;
     let output := strip (re_sub EXECUTION_INFO_PATTERN output) in
     let output := strip (re_sub oauth2_pattern output) in
     if has_error_keyword output then
       _log_error (u "OUTPUT_ERROR") output user_id prompt ;;;
       ret (friendly_response 0)
     else
       match output with
       | [] =>
           _log_error (u "EMPTY_OUTPUT") (u "No output") user_id prompt ;;;
           ret (friendly_response 1)
       | _ :: _ =>
           if length output <? 5 then
             _log_error (u "SHORT_OUTPUT") output user_id prompt ;;;
             ret (friendly_response 2)
           else ret output
       end)
    (fun e =>
       match exn_cls e with
       | TimeoutExpired =>
           _log_error (u "TIMEOUT") (u "Command timeout") user_id prompt ;;;
           ret (friendly_response 3)
       | FileNotFoundError =>
           _log_error (u "NOT_FOUND") (u "AI CLI not found") user_id prompt ;;;
           ret NOT_INSTALLED
       | _ =>
           _log_error (u "EXCEPTION") (exn_str e) user_id prompt ;;;
           ret (friendly_response 0)
       end).

(** ** The worker pool *)

(** A future is the submitted work, run on a pool thread when the pool gets
    to it. *)
Definition Future (A : Type) := M World A.

(** [self.executor.submit(fn, ...)]: refused once the pool is shut down. *)
Definition submit {A} (job : M World A) : M World (Future A) :=
  fun w =>
    if pool_shutdown w then
      (Raise (mk_exn RuntimeError (u "cannot schedule new futures after shutdown")), w)
    else (Return job, w).

(** Run [job] on thread [t], then come back to the current thread. *)
Definition on_thread {A} (t : thread) (job : M World A) : M World A :=
  fun w =>
    let '(r, w') := job (set_running_on t w) in
    (r, set_running_on (running_on w) w').

(** [future.result(timeout=timeout)]: the current thread blocks until the
    work is done or the deadline elapses.  An exception raised by the work
    is raised again here. *)
Definition result {A} (future : Future A) (timeout : Z) : M World A :=
  me <- gets running_on ;;
  modify (fun w => set_waits (waits w ++ [(me, timeout)]) w) ;;;
  how <- gets future_wait ;;
  match how with
  | Completes => on_thread PoolThread future
  | DeadlineElapses => raise (mk_exn FutureTimeoutError [])
  | Faults e => raise e
  end.

(** [callback(result, user_id)], on the current thread. *)
Definition invoke (callback : Callback) (result : pystr) (user_id : Z) : M World unit :=
  fun w =>
    (callback (calls w) result user_id,
     set_calls (calls w ++ [{| call_thread := running_on w;
                               call_result := result;
                               call_user := user_id |}]) w).

Definition execute_chat_async (prompt : pystr) (user_id : Z) (callback : Callback)
  : M World unit :=
  future <- submit (execute_chat prompt user_id) ;;
  try_except
    (r <- result future AI_COMMAND_TIMEOUT ;;
     invoke callback r user_id)
    (fun e =>
       match exn_cls e with
       | FutureTimeoutError => invoke callback ASYNC_TIMEOUT user_id
       | _ => invoke callback ASYNC_FAILURE user_id
       end).

(** [self.executor.shutdown(wait=False)] *)
Definition shutdown : M World unit := modify (set_pool_shutdown true).

End Executor.

(** The record of a callback invocation made on the thread of [w]. *)
Definition call_on (w : World) (r : pystr) (user_id : Z) : call :=
  {| call_thread := running_on w; call_result := r; call_user := user_id |}.

(** What the [except] clauses of [execute_chat_async] pass to the callback
    for an exception. *)
Definition async_fallback (e : exn) : pystr :=
  match exn_cls e with
  | FutureTimeoutError => ASYNC_TIMEOUT
  | _ => ASYNC_FAILURE
  end.

(** A world to start concrete runs from: diagnostics written to
    [./debug.log], a working disk, nothing logged or called yet. *)
Definition world0 (run : list pystr -> outcome pystr) (how : wait_outcome) : World :=
  {| DEBUG_LOG_PATH := Some (u "./debug.log");
     subprocess_run := run; future_wait := how;
     clock := u "2024-01-01 00:00:00"; disk_ok := true;
     debug_log := []; pool_shutdown := false; running_on := CallingThread;
     waits := []; calls := [] |}.

(** A backend that prints [stdout], and one that runs into the deadline. *)
Definition answers (stdout : pystr) : list pystr -> outcome pystr :=
  fun _ => Return stdout.

Definition times_out : list pystr -> outcome pystr :=
  fun _ => Raise (mk_exn TimeoutExpired (u "timed out after 60 seconds")).

(** An output with one metadata block inside the opening marker of
    another, and what is left of it once the inner block is cut out. *)
Definition nested_block : pystr :=
  Eval vm_compute in
  u "<Execution <Execution Info>a</Execution Info>Info>secret</Execution Info>".

Definition spliced_block : pystr :=
  Eval vm_compute in u "<Execution Info>secret</Execution Info>".

(** A callback that returns, and one that raises the first time it is
    called. *)
Definition quiet_callback : Callback := fun _ _ _ => Return tt.

Definition send_failed : exn := mk_exn OtherException (u "reply could not be sent").

Definition failing_once : Callback :=
  fun earlier _ _ =>
    match earlier with
    | [] => Raise send_failed
    | _ :: _ => Return tt
    end.

End ChatExecutor.

(* ================================================================== *)
(** * ws_client.py *)
(* ================================================================== *)

Module WSClient.

(** The identity of a [websocket.WebSocketApp] object. *)
Definition handle := nat.

(** The values [json.loads] produces and [json.dumps] accepts. *)
#[local] Unset Elimination Schemes.
Inductive json :=
| JNull
| JBool (b : bool)
| JInt (z : Z)
| JStr (s : pystr)
| JList (l : list json)
| JDict (d : list (pystr * json)).
#[local] Set Elimination Schemes.

(** The [json] module of the standard library. *)
Class JsonCodec := {
  json_dumps : json -> pystr;
  json_loads : pystr -> outcome json   (* raises JSONDecodeError on other text *)
}.

(** The mutable fields of a [WSClient]. *)
Record Self := {
  ws : option handle;
  connected : bool;
  _should_stop : bool
}.

(** What the other threads do to the client: the connect loop starts an
    attempt with a new [WebSocketApp], the transport delivers open, error
    and close, somebody calls [disconnect]. *)
Inductive event :=
| EvAttempt (h : handle)
| EvOpen (h : handle)
| EvError (e : exn)
| EvClose (code msg : pystr)
| EvDisconnect.

Record World := {
  self : Self;
  ws_url : pystr;
  (* the callbacks given to __init__: what calling them results in; what a
     callback does to the client is a matter of further events *)
  on_message : option (json -> outcome unit);
  on_connect : option (outcome unit);
  on_disconnect : option (outcome unit);
  on_error : option (exn -> outcome unit);
  (* environment *)
  sock_send : handle -> pystr -> outcome unit;   (* WebSocketApp.send *)
  sock_close : handle -> outcome unit;           (* WebSocketApp.close *)
  pending : list event;      (* what other threads do while [send] is
                                between its two critical sections *)
  (* observations *)
  wire : list (handle * pystr);                  (* frames written *)
  stdout : list pystr                            (* lines printed *)
}.

Definition set_self (s : Self) (w : World) : World :=
  {| self := s; ws_url := ws_url w; on_message := on_message w;
     on_connect := on_connect w; on_disconnect := on_disconnect w;
     on_error := on_error w;
     sock_send := sock_send w; sock_close := sock_close w;
     pending := pending w; wire := wire w; stdout := stdout w |}.

Definition set_on_message (f : option (json -> outcome unit)) (w : World) : World :=
  {| self := self w; ws_url := ws_url w; on_message := f;
     on_connect := on_connect w; on_disconnect := on_disconnect w;
     on_error := on_error w;
     sock_send := sock_send w; sock_close := sock_close w;
     pending := pending w; wire := wire w; stdout := stdout w |}.

Definition set_pending (l : list event) (w : World) : World :=
  {| self := self w; ws_url := ws_url w; on_message := on_message w;
     on_connect := on_connect w; on_disconnect := on_disconnect w;
     on_error := on_error w;
     sock_send := sock_send w; sock_close := sock_close w;
     pending := l; wire := wire w; stdout := stdout w |}.

Definition set_wire (l : list (handle * pystr)) (w : World) : World :=
  {| self := self w; ws_url := ws_url w; on_message := on_message w;
     on_connect := on_connect w; on_disconnect := on_disconnect w;
     on_error := on_error w;
     sock_send := sock_send w; sock_close := sock_close w;
     pending := pending w; wire := l; stdout := stdout w |}.

Definition set_stdout (l : list pystr) (w : World) : World :=
  {| self := self w; ws_url := ws_url w; on_message := on_message w;
     on_connect := on_connect w; on_disconnect := on_disconnect w;
     on_error := on_error w;
     sock_send := sock_send w; sock_close := sock_close w;
     pending := pending w; wire := wire w; stdout := l |}.

Definition set_ws (h : option handle) : M World unit :=
  modify (fun w => set_self {| ws := h; connected := connected (self w);
                               _should_stop := _should_stop (self w) |} w).

Definition set_connected (b : bool) : M World unit :=
  modify (fun w => set_self {| ws := ws (self w); connected := b;
                               _should_stop := _should_stop (self w) |} w).

Definition set_should_stop (b : bool) : M World unit :=
  modify (fun w => set_self {| ws := ws (self w); connected := connected (self w);
                               _should_stop := b |} w).

Definition print (line : pystr) : M World unit :=
  modify (fun w => set_stdout (stdout w ++ [line]) w).

(** The result of a call into the environment or into a callback. *)
Definition lift {A} (r : outcome A) : M World A := fun w => (r, w).

(** [if cb: cb()] *)
Definition call_if_set (cb : option (outcome unit)) : M World unit :=
  match cb with
  | Some r => lift r
  | None => ret tt
  end.

(** [WSClient.__init__]: no handle, not connected, not stopped. *)
Definition init : Self := {| ws := None; connected := false; _should_stop := false |}.

Definition is_connected : M World bool := gets (fun w => connected (self w)).

Definition _on_open (h : handle) : M World unit :=
  set_connected true ;;;
  set_ws (Some h) ;;;
  print (u "[WS] 已连接") ;;;
  cb <- gets on_connect ;;
  call_if_set cb.

Definition _on_error (error : exn) : M World unit :=
  print (u "[WS] 错误: " ++ exn_str error) ;;;
  set_connected false ;;;
  cb <- gets on_error ;;
  match cb with
  | Some f => lift (f error)
  | None => ret tt
  end.

Definition _on_close (close_status_code close_msg : pystr) : M World unit :=
  print (u "[WS] 已断开: " ++ close_status_code ++ u " - " ++ close_msg) ;;;
  set_connected false ;;;
  set_ws None ;;;
  cb <- gets on_disconnect ;;
  call_if_set cb.

(** The part of one turn of the loop in [connect] that touches the client:
    under [while not self._should_stop], a new [WebSocketApp] [h] is stored
    in [self.ws] before [run_forever] is entered.  What [run_forever] then
    delivers are the events above; the rest of the turn prints and sleeps. *)
Definition connect_attempt (h : handle) : M World unit :=
  stop <- gets (fun w => _should_stop (self w)) ;;
  if stop then ret tt
  else
    url <- gets ws_url ;;
    print (u "[WS] 正在连接 " ++ url ++ u "...") ;;;
    set_ws (Some h).

Definition disconnect : M World unit :=
  set_should_stop true ;;;
  h <- gets (fun w => ws (self w)) ;;
  match h with
  | Some h => close <- gets sock_close ;; lift (close h)
  | None => ret tt
  end ;;;
  set_connected false ;;;
  print (u "[WS] 已断开").

(** The effect of an event on the world; an exception it raises goes to the
    thread that delivered it. *)
Definition apply_event (ev : event) (w : World) : World :=
  match ev with
  | EvAttempt h => snd (connect_attempt h w)
  | EvOpen h => snd (_on_open h w)
  | EvError e => snd (_on_error e w)
  | EvClose code msg => snd (_on_close code msg w)
  | EvDisconnect => snd (disconnect w)
  end.

Definition run_events (evs : list event) (w : World) : World :=
  fold_left (fun w ev => apply_event ev w) evs w.

(** The world [send] finds when it takes the lock for the write:
    [is_connected] has released the lock, and until [send] takes it again
    the other threads have run. *)
Definition at_lock (w : World) : World :=
  run_events (pending w) (set_pending [] w).

Definition lock_released : M World unit := modify at_lock.

(** A connected client has a handle. *)
Definition handle_when_connected (s : Self) : Prop :=
  connected s = true -> ws s <> None.

Section Codec.
Context {J : JsonCodec}.

Definition _on_message (h : handle) (message : pystr) : M World unit :=
  try_except
    (data <- lift (json_loads message) ;;
     cb <- gets on_message ;;
     match cb with
     | Some f => lift (f data)
     | None => ret tt
     end)
    (fun e =>
       match exn_cls e with
       | JSONDecodeError => print (u "[WS] 非JSON消息: " ++ message)
       | _ => raise e
       end).

Definition send (data : json) : M World bool :=
  c <- is_connected ;;
  if negb c then
    print (u "[WS] 未连接，无法发送") ;;;
    ret false
  else
    lock_released ;;;
    try_except
      (h <- gets (fun w => ws (self w)) ;;
       match h with
       | Some h =>
           write <- gets sock_send ;;
           lift (write h (json_dumps data)) ;;;
           modify (fun w => set_wire (wire w ++ [(h, json_dumps data)]) w)
       | None => ret tt
       end ;;;
       ret true)
      (fun e =>
         print (u "[WS] 发送失败: " ++ exn_str e) ;;;
         ret false).

Definition send_private_msg (user_id : Z) (message : pystr) : M World bool :=
  send (JDict [ (u "action", JStr (u "send_private_msg"));
                (u "params", JDict [ (u "user_id", JInt user_id);
                                     (u "message", JStr message) ]) ]).

Definition send_group_msg (group_id : Z) (message : pystr) : M World bool :=
  send (JDict [ (u "action", JStr (u "send_group_msg"));
                (u "params", JDict [ (u "group_id", JInt group_id);
                                     (u "message", JStr message) ]) ]).

End Codec.

(** ** Fixtures for concrete runs *)

Fixpoint pystr_eqb (a b : pystr) : bool :=
  match a, b with
  | [], [] => true
  | x :: a', y :: b' => (x =? y)%N && pystr_eqb a' b'
  | _, _ => false
  end.

(** The codec on the frames of the examples: [json.loads('{}')] is the empty
    dict and [json.loads('not json')] raises; nothing else is decoded in the
    examples.  The text written for a value is not looked at. *)
Definition example_codec : JsonCodec :=
  {| json_dumps := fun _ => u "{...}";
     json_loads := fun s =>
       if pystr_eqb s (u "{}") then Return (JDict [])
       else Raise (mk_exn JSONDecodeError (u "Expecting value")) |}.

(** A freshly constructed client with no callbacks, on a transport whose
    writes and closes succeed. *)
Definition world0 : World :=
  {| self := init;
     ws_url := u "ws://127.0.0.1:3001";
     on_message := None; on_connect := None; on_disconnect := None;
     on_error := None;
     sock_send := fun _ _ => Return tt;
     sock_close := fun _ => Return tt;
     pending := []; wire := []; stdout := [] |}.

(** The client after a successful connection on handle 1. *)
Definition connected_world : World := run_events [EvAttempt 1; EvOpen 1] world0.

(** The same client, where the transport closes between the connectivity
    check of [send] and its write. *)
Definition closing_world : World :=
  set_pending [EvClose (u "1006") (u "connection lost")] connected_world.

(** A message handler that decodes a payload of its own and fails at it. *)
Definition decode_error : exn := mk_exn JSONDecodeError (u "Expecting value").

Definition reparsing_handler : json -> outcome unit := fun _ => Raise decode_error.

(** A message handler that fails for another reason. *)
Definition key_error : exn := mk_exn OtherException (u "'type'").

Definition indexing_handler : json -> outcome unit := fun _ => Raise key_error.

End WSClient.


(* ================================================================== *)
(** * Built-ins used by the other modules *)
(* ================================================================== *)

Module Builtins.

Definition str_eq_dec : forall a b : pystr, {a = b} + {a <> b} :=
  list_eq_dec N.eq_dec.

Definition str_eqb (a b : pystr) : bool :=
  if str_eq_dec a b then true else false.

(** A [dict] with [str] keys, for code that only looks keys up, assigns
    them and deletes them. *)
Definition dict (V : Type) := pystr -> option V.

Definition dict_empty {V} : dict V := fun _ => None.

(** [d[k] = v] *)
Definition dict_set {V} (k : pystr) (v : V) (d : dict V) : dict V :=
  fun k' => if str_eq_dec k k' then Some v else d k'.

(** [del d[k]] *)
Definition dict_del {V} (k : pystr) (d : dict V) : dict V :=
  fun k' => if str_eq_dec k k' then None else d k'.

(** [k in d] *)
Definition dict_in {V} (k : pystr) (d : dict V) : bool :=
  match d k with
  | Some _ => true
  | None => false
  end.

(** [d.get(k, default)] *)
Definition dict_get {V} (k : pystr) (default : V) (d : dict V) : V :=
  match d k with
  | Some v => v
  | None => default
  end.

(** [s.endswith(c)] for a single character. *)
Definition ends_with_char (c : codepoint) (s : pystr) : bool :=
  match rev s with
  | [] => false
  | d :: _ => (c =? d)%N
  end.

(** [s.count(c)] for a single character. *)
Definition count_char (c : codepoint) (s : pystr) : nat :=
  length (filter (fun d => (c =? d)%N) s).

Definition LF : codepoint := 10%N.
Definition CR : codepoint := 13%N.

(** [s.split('\n')]: the pieces between the line feeds; one piece more
    than there are line feeds. *)
Fixpoint split_lf (s : pystr) : list pystr :=
  match s with
  | [] => [[]]
  | c :: tl =>
      if (c =? LF)%N then [] :: split_lf tl
      else match split_lf tl with
           | [] => [[c]]
           | piece :: pieces => (c :: piece) :: pieces
           end
  end.

(** What [f.readlines()] gives for a text: the lines with their line feed,
    the last one without if the text does not end in one. *)
Fixpoint readlines (s : pystr) : list pystr :=
  match s with
  | [] => []
  | c :: tl =>
      if (c =? LF)%N then [c] :: readlines tl
      else match readlines tl with
           | [] => [[c]]
           | line :: lines => (c :: line) :: lines
           end
  end.

(** [l[-n:]] for a list with more than [n] elements, [n] positive. *)
Definition last_n {A} (n : nat) (l : list A) : list A :=
  skipn (length l - n) l.

(** Reading in text mode with the default [newline=None]: a carriage
    return, with the line feed behind it if there is one, is read as one
    line feed. *)
Fixpoint universal_newlines (s : pystr) : pystr :=
  match s with
  | [] => []
  | c :: tl =>
      if (c =? CR)%N then
        LF :: match tl with
              | [] => []
              | d :: tl' =>
                  if (d =? LF)%N then universal_newlines tl'
                  else universal_newlines tl
              end
      else c :: universal_newlines tl
  end.

(** [os.path.join(a, b)] of [posixpath]. *)
Definition os_path_join (a b : pystr) : pystr :=
  if startswith [47%N] b then b
  else match a with
       | [] => b
       | _ :: _ => if ends_with_char 47%N a then a ++ b else a ++ [47%N] ++ b
       end.

End Builtins.

Import Builtins.

(* ================================================================== *)
(** * chat_modes.py *)
(* ================================================================== *)

Module ChatModes.

Definition AVAILABLE_MODES : list (pystr * pystr) :=
  Eval vm_compute in
  [ (u "chat", u "日常聊天模式");
    (u "coc", u "COC跑团模式");
    (u "dnd", u "DND跑团模式");
    (u "think", u "深度思考模式") ].

Definition UNKNOWN_MODE : pystr := Eval vm_compute in u "未知模式".
Definition DEFAULT_MODE : pystr := Eval vm_compute in u "chat".

(** [mode in AVAILABLE_MODES] *)
Definition is_available (mode : pystr) : bool :=
  existsb (fun kv => str_eqb mode (fst kv)) AVAILABLE_MODES.

(** [AVAILABLE_MODES.get(mode)] *)
Fixpoint lookup (mode : pystr) (table : list (pystr * pystr)) : option pystr :=
  match table with
  | [] => None
  | (k, v) :: rest => if str_eqb mode k then Some v else lookup mode rest
  end.

Definition get_available_modes : list (pystr * pystr) := AVAILABLE_MODES.

Definition get_mode_description (mode : pystr) : pystr :=
  match lookup mode AVAILABLE_MODES with
  | Some d => d
  | None => UNKNOWN_MODE
  end.

(** [ChatModeManager]: [self.modes], starting from [{}]. *)
Definition Manager := dict pystr.

Definition new : Manager := dict_empty.

Definition get_mode (session_key : pystr) (self : Manager) : pystr :=
  dict_get session_key DEFAULT_MODE self.

Definition set_mode (session_key mode : pystr) (self : Manager) : bool * Manager :=
  if negb (is_available mode) then (false, self)
  else (true, dict_set session_key mode self).

Definition reset_mode (session_key : pystr) (self : Manager) : Manager :=
  if dict_in session_key self then dict_del session_key self else self.

(** The modes a manager holds are available ones. *)
Definition holds_available (self : Manager) : Prop :=
  forall k m, self k = Some m -> is_available m = true.

(** The calls that change a manager. *)
Inductive op :=
| SetMode (session_key mode : pystr)
| ResetMode (session_key : pystr).

Definition apply_op (o : op) (self : Manager) : Manager :=
  match o with
  | SetMode k m => snd (set_mode k m self)
  | ResetMode k => reset_mode k self
  end.

Definition run_ops (ops : list op) (self : Manager) : Manager :=
  fold_left (fun s o => apply_op o s) ops self.

End ChatModes.

(* ================================================================== *)
(** * chat_history.py *)
(* ================================================================== *)

Module ChatHistory.

(** chat_config.py *)
Definition MAX_HISTORY_LINES : nat := 5.

(** The mode of an [open]. *)
Inductive open_mode := ReadMode | AppendMode | WriteMode.

(** A [ChatHistory] and the files it works on, on a POSIX system
    ([os.sep] is ['/'], [os.linesep] is a line feed).  [files] maps a
    path, the text that is handed to [open], to the text of the regular
    file found there; a file whose bytes are not UTF-8 is one whose text
    cannot be encoded.  [dirs] are the paths that are directories.  The
    map says what is read back under the path that was written; it does
    not relate two spellings or two links of one file, and the properties
    below speak of one path at a time.  [stat_error] says where [os.stat]
    is refused, [open_error] and [remove_error] which calls of [open] and
    [os.remove] the system refuses (no permission, no directory to put the
    file in, ...).  [opened_for_writing] records the calls of [open] in a
    mode that writes, oldest first, with the path as it was handed over.
    [stdout] takes every line that is printed. *)
Record World := {
  history_dir : pystr;                              (* self.history_dir *)
  files : dict pystr;
  dirs : pystr -> bool;
  stat_error : pystr -> bool;
  open_error : open_mode -> pystr -> option exn;
  remove_error : pystr -> option exn;
  opened_for_writing : list (open_mode * pystr);
  stdout : list pystr
}.

Definition set_files (f : dict pystr) (w : World) : World :=
  {| history_dir := history_dir w; files := f; dirs := dirs w;
     stat_error := stat_error w; open_error := open_error w;
     remove_error := remove_error w;
     opened_for_writing := opened_for_writing w; stdout := stdout w |}.

Definition set_opened_for_writing (l : list (open_mode * pystr)) (w : World) : World :=
  {| history_dir := history_dir w; files := files w; dirs := dirs w;
     stat_error := stat_error w; open_error := open_error w;
     remove_error := remove_error w;
     opened_for_writing := l; stdout := stdout w |}.

Definition set_stdout (l : list pystr) (w : World) : World :=
  {| history_dir := history_dir w; files := files w; dirs := dirs w;
     stat_error := stat_error w; open_error := open_error w;
     remove_error := remove_error w;
     opened_for_writing := opened_for_writing w; stdout := l |}.

(** A call of [open] in a mode that writes is on record, whether the
    system lets it through or not. *)
Definition note_open (mode : open_mode) (path : pystr) : M World unit :=
  modify (fun w => set_opened_for_writing (opened_for_writing w ++ [(mode, path)]) w).

Definition IsADirectoryError (path : pystr) : exn := mk_exn OtherException path.

(** What [open(path, mode)] raises, if it raises: a directory cannot be
    opened in any mode. *)
Definition open_refused (w : World) (mode : open_mode) (path : pystr) : option exn :=
  if dirs w path then Some (IsADirectoryError path) else open_error w mode path.

Definition print (line : pystr) : M World unit :=
  modify (fun w => set_stdout (stdout w ++ [line]) w).

(** [os.path.exists(path)]: [False] where [os.stat] is refused. *)
Definition exists_ (path : pystr) : M World bool :=
  gets (fun w => negb (stat_error w path) && (dirs w path || dict_in path (files w))).

(** [with open(path, 'r', encoding='utf-8') as f: f.read()]; the same
    text is what [f.readlines()] splits. *)
Definition read_text (path : pystr) : M World pystr :=
  fun w =>
    match open_refused w ReadMode path with
    | Some e => (Raise e, w)
    | None =>
        match files w path with
        | None => (Raise (mk_exn FileNotFoundError path), w)
        | Some text =>
            if utf8_encodable text then (Return (universal_newlines text), w)
            else (Raise (mk_exn OtherException (u "codec can't decode byte")), w)
        end
    end.

(** [with open(path, 'a', encoding='utf-8') as f: f.write(text)]: the file
    is created if it is not there; text that cannot be encoded is not
    written. *)
Definition append_text (path text : pystr) : M World unit :=
  note_open AppendMode path ;;;
  fun w =>
    match open_refused w AppendMode path with
    | Some e => (Raise e, w)
    | None =>
        let old := dict_get path [] (files w) in
        if utf8_encodable text then
          (Return tt, set_files (dict_set path (old ++ text) (files w)) w)
        else
          (Raise (mk_exn OtherException (u "codec can't encode character")),
           set_files (dict_set path old (files w)) w)
    end.

(** The lines [f.writelines] gets through before one cannot be encoded. *)
Fixpoint encodable_prefix (lines : list pystr) : list pystr :=
  match lines with
  | [] => []
  | l :: rest => if utf8_encodable l then l :: encodable_prefix rest else []
  end.

(** [with open(path, 'w', encoding='utf-8') as f: f.writelines(lines)]: the
    file is emptied when it is opened. *)
Definition write_lines (path : pystr) (lines : list pystr) : M World unit :=
  note_open WriteMode path ;;;
  fun w =>
    match open_refused w WriteMode path with
    | Some e => (Raise e, w)
    | None =>
        if forallb utf8_encodable lines then
          (Return tt, set_files (dict_set path (concat lines) (files w)) w)
        else
          (Raise (mk_exn OtherException (u "codec can't encode character")),
           set_files (dict_set path (concat (encodable_prefix lines)) (files w)) w)
    end.

(** [os.remove(path)]: a directory is not removed. *)
Definition remove (path : pystr) : M World unit :=
  fun w =>
    if dirs w path then (Raise (IsADirectoryError path), w)
    else
      match remove_error w path with
      | Some e => (Raise e, w)
      | None =>
          match files w path with
          | None => (Raise (mk_exn FileNotFoundError path), w)
          | Some _ => (Return tt, set_files (dict_del path (files w)) w)
          end
      end.

(** [os.path.join(self.history_dir, f"{user_key}.txt")] *)
Definition history_file (user_key : pystr) : M World pystr :=
  dir <- gets history_dir ;;
  ret (os_path_join dir (user_key ++ u ".txt")).

Definition get_history (user_key : pystr) : M World pystr :=
  history_file <- history_file user_key ;;
  there <- exists_ history_file ;;
  if there then
    try_except (read_text history_file) (fun _ => ret [])
  else ret [].

Definition save_history (user_key response : pystr) : M World unit :=
  history_file <- history_file user_key ;;
  try_except
    (append_text history_file ([LF] ++ response) ;;;
     text <- read_text history_file ;;
     let lines := readlines text in
     if MAX_HISTORY_LINES <? length lines then
       write_lines history_file (last_n MAX_HISTORY_LINES lines)
     else ret tt)
    (fun e => print (u "保存历史失败: " ++ exn_str e)).

Definition clear_history (user_key : pystr) : M World bool :=
  history_file <- history_file user_key ;;
  there <- exists_ history_file ;;
  if there then
    try_except (remove history_file ;;; ret true) (fun _ => ret false)
  else ret true.

Section WithUnicode.
Context {U : Unicode}.

Definition get_history_length (user_key : pystr) : M World nat :=
  history <- get_history user_key ;;
  match history with
  | [] => ret 0
  | _ :: _ => ret (length (split_lf (strip history)))
  end.

End WithUnicode.

(** The path of the history file of [user_key]. *)
Definition history_path (w : World) (user_key : pystr) : pystr :=
  os_path_join (history_dir w) (user_key ++ u ".txt").

(** What [get_history] returns after [save_history] has appended to the
    text [t]: [t] itself, or its last [MAX_HISTORY_LINES] lines. *)
Definition kept (t : pystr) : pystr :=
  if MAX_HISTORY_LINES <? length (readlines t) then
    concat (last_n MAX_HISTORY_LINES (readlines t))
  else t.

(** The file system lets [save_history] and [get_history] work on [path]:
    it is no directory, nothing is refused there, and what the file holds
    is UTF-8. *)
Definition usable (w : World) (path : pystr) : Prop :=
  stat_error w path = false /\
  dirs w path = false /\
  (forall mode, open_error w mode path = None) /\
  utf8_encodable (dict_get path [] (files w)) = true.

(** A history kept under [/data], on a file system that refuses nothing. *)
Definition world0 : World :=
  {| history_dir := u "/data";
     files := dict_empty;
     dirs := fun path => str_eqb path (u "/data");
     stat_error := fun _ => false;
     open_error := fun _ _ => None;
     remove_error := fun _ => None;
     opened_for_writing := [];
     stdout := [] |}.

(** The same with a read-only history file for [alice]. *)
Definition read_only_world : World :=
  {| history_dir := u "/data";
     files := dict_set (u "/data/alice.txt") (u "old") dict_empty;
     dirs := fun path => str_eqb path (u "/data");
     stat_error := fun _ => false;
     open_error := fun mode _ =>
       match mode with
       | ReadMode => None
       | _ => Some (mk_exn OtherException (u "Permission denied"))
       end;
     remove_error := fun _ => Some (mk_exn OtherException (u "Permission denied"));
     opened_for_writing := [];
     stdout := [] |}.

End ChatHistory.

(* ================================================================== *)
(** * chat_config.py and the names imported from it *)
(* ================================================================== *)

Module ChatConfig.

(** The globals of [chat_config] that [setup] assigns. *)
Record Globals := {
  HISTORY_DIR : pystr;
  DEBUG_LOG_PATH : option pystr;
  AI_WORK_DIR : option pystr
}.

(** [if x:] for an argument that is [None] or a [str]. *)
Definition truthy (x : option pystr) : bool :=
  match x with
  | Some (_ :: _) => true
  | _ => false
  end.

(** [x or default] *)
Definition or_default (x : option pystr) (default : pystr) : pystr :=
  match x with
  | Some (c :: s) => c :: s
  | _ => default
  end.

Definition setup (history_dir debug_log work_dir : option pystr) (g : Globals)
  : Globals :=
  let g :=
    if truthy history_dir then
      {| HISTORY_DIR := or_default history_dir (HISTORY_DIR g);
         DEBUG_LOG_PATH := DEBUG_LOG_PATH g; AI_WORK_DIR := AI_WORK_DIR g |}
    else g in
  let g :=
    if truthy debug_log then
      {| HISTORY_DIR := HISTORY_DIR g;
         DEBUG_LOG_PATH := debug_log; AI_WORK_DIR := AI_WORK_DIR g |}
    else g in
  if truthy work_dir then
    {| HISTORY_DIR := HISTORY_DIR g;
       DEBUG_LOG_PATH := DEBUG_LOG_PATH g; AI_WORK_DIR := work_dir |}
  else g.

(** The package once it is imported.  [chat_executor] and [chat_history]
    use [from .chat_config import ...]: each gets names of its own, bound
    to the values [chat_config] has at that moment. *)
Record Package := {
  chat_config : Globals;
  executor_DEBUG_LOG_PATH : option pystr;    (* chat_executor.DEBUG_LOG_PATH *)
  executor_AI_WORK_DIR : option pystr;       (* chat_executor.AI_WORK_DIR *)
  history_HISTORY_DIR : pystr                (* chat_history.HISTORY_DIR *)
}.

(** Importing the package from the directory [package_dir]: the body of
    [chat_config] runs, then the imports of the other modules. *)
Definition import_package (package_dir : pystr) : Package :=
  let g := {| HISTORY_DIR := os_path_join package_dir (u ".chat_history");
              DEBUG_LOG_PATH := None;
              AI_WORK_DIR := None |} in
  {| chat_config := g;
     executor_DEBUG_LOG_PATH := DEBUG_LOG_PATH g;
     executor_AI_WORK_DIR := AI_WORK_DIR g;
     history_HISTORY_DIR := HISTORY_DIR g |}.

(** A call [setup(history_dir, debug_log, work_dir)]: the [global]
    statement makes it assign the globals of [chat_config]. *)
Definition call_setup (args : option pystr * option pystr * option pystr)
  (p : Package) : Package :=
  let '(history_dir, debug_log, work_dir) := args in
  {| chat_config := setup history_dir debug_log work_dir (chat_config p);
     executor_DEBUG_LOG_PATH := executor_DEBUG_LOG_PATH p;
     executor_AI_WORK_DIR := executor_AI_WORK_DIR p;
     history_HISTORY_DIR := history_HISTORY_DIR p |}.

Definition call_setups (calls : list (option pystr * option pystr * option pystr))
  (p : Package) : Package :=
  fold_left (fun p args => call_setup args p) calls p.

(** [ChatHistory.__init__]: [self.history_dir = history_dir or HISTORY_DIR] *)
Definition history_dir_of (p : Package) (history_dir : option pystr) : pystr :=
  or_default history_dir (history_HISTORY_DIR p).

(** The world of an executor in the package: [_log_error] reads the
    [DEBUG_LOG_PATH] of [chat_executor]. *)
Definition executor_world (p : Package) (w : ChatExecutor.World) : ChatExecutor.World :=
  {| ChatExecutor.DEBUG_LOG_PATH := executor_DEBUG_LOG_PATH p;
     ChatExecutor.subprocess_run := ChatExecutor.subprocess_run w;
     ChatExecutor.future_wait := ChatExecutor.future_wait w;
     ChatExecutor.clock := ChatExecutor.clock w;
     ChatExecutor.disk_ok := ChatExecutor.disk_ok w;
     ChatExecutor.debug_log := ChatExecutor.debug_log w;
     ChatExecutor.pool_shutdown := ChatExecutor.pool_shutdown w;
     ChatExecutor.running_on := ChatExecutor.running_on w;
     ChatExecutor.waits := ChatExecutor.waits w;
     ChatExecutor.calls := ChatExecutor.calls w |}.

End ChatConfig.

(* ================================================================== *)
(** * __init__.py: ChatBot *)
(* ================================================================== *)

Module ChatBot.

(** A [ChatBot]: its executor, its history and its mode manager, each with
    the world it works on. *)
Record Bot := {
  executor : ChatExecutor.World;
  history : ChatHistory.World;
  modes : ChatModes.Manager
}.

Definition in_executor {A} (m : M ChatExecutor.World A) : M Bot A :=
  fun b =>
    let '(r, w) := m (executor b) in
    (r, {| executor := w; history := history b; modes := modes b |}).

Definition in_history {A} (m : M ChatHistory.World A) : M Bot A :=
  fun b =>
    let '(r, w) := m (history b) in
    (r, {| executor := executor b; history := w; modes := modes b |}).

(** The result of a call into the environment. *)
Definition lift {A} (r : outcome A) : M Bot A := fun b => (r, b).

Section Bot.
Context {U : Unicode}.

(** [chat_prompts.get_system_prompt_by_mode]; the module [chat_prompts] is
    not among the sources, so the function is a parameter. *)
Variable get_system_prompt_by_mode : pystr -> outcome pystr.

(** The built-in [hash] on [str], which differs from process to process. *)
Variable hash : pystr -> Z.

(** The two shapes of the prompt. *)
Definition prompt_with_history (system_prompt history message : pystr) : pystr :=
  system_prompt ++ [LF; LF] ++ u "【对话历史】" ++ [LF] ++ history ++
  [LF; LF] ++ u "【用户消息】" ++ [LF] ++ message.

Definition prompt_without_history (system_prompt message : pystr) : pystr :=
  system_prompt ++ [LF; LF] ++ u "【用户消息】" ++ [LF] ++ message.

(** [f"用户: {message}\nAI: {response}"] *)
Definition history_entry (message response : pystr) : pystr :=
  u "用户: " ++ message ++ [LF] ++ u "AI: " ++ response.

Definition chat (message user_id : pystr) (mode : option pystr) : M Bot pystr :=
  mode <- match mode with
          | None => gets (fun b => ChatModes.get_mode user_id (modes b))
          | Some m => ret m
          end ;;
  system_prompt <- lift (get_system_prompt_by_mode mode) ;;
  history <- in_history (ChatHistory.get_history user_id) ;;
  let full_prompt :=
    match history with
    | _ :: _ => prompt_with_history system_prompt history message
    | [] => prompt_without_history system_prompt message
    end in
  response <- in_executor (ChatExecutor.execute_chat full_prompt (hash user_id)) ;;
  match response with
  | _ :: _ =>
      in_history (ChatHistory.save_history user_id (history_entry message response))
  | [] => ret tt
  end ;;;
  ret response.

Definition set_mode (user_id mode : pystr) : M Bot bool :=
  fun b =>
    let '(ok, m) := ChatModes.set_mode user_id mode (modes b) in
    (Return ok, {| executor := executor b; history := history b; modes := m |}).

Definition get_mode (user_id : pystr) : M Bot pystr :=
  gets (fun b => ChatModes.get_mode user_id (modes b)).

Definition clear_history (user_id : pystr) : M Bot unit :=
  in_history (ChatHistory.clear_history user_id) ;;; ret tt.

End Bot.

(** A bot for concrete runs: the prompt of every mode is one fixed line,
    every user hashes to 0. *)
Definition example_prompts : pystr -> outcome pystr :=
  fun _ => Return (u "You are a helpful assistant.").

Definition example_hash : pystr -> Z := fun _ => 0%Z.

Definition bot0 (run : list pystr -> outcome pystr) : Bot :=
  {| executor := ChatExecutor.world0 run ChatExecutor.Completes;
     history := ChatHistory.world0;
     modes := ChatModes.new |}.

End ChatBot.

(* ================================================================== *)
(** * Further notions for the execution gateway and the session client *)
(* ================================================================== *)

Module Notions.

Import ChatExecutor.

(** The four lines of the block [_log_error] writes. *)
Definition log_block (w : World) (kind msg : pystr) (user_id : Z) (prompt : pystr)
  : list log_line :=
  [ Header (clock w) kind user_id; PromptLine (firstn 200 prompt);
    ErrorLine msg; Separator ].

(** What the [except] clauses of [execute_chat] return for an exception. *)
Definition sync_fallback (e : exn) : pystr :=
  match exn_cls e with
  | TimeoutExpired => friendly_response 3
  | FileNotFoundError => NOT_INSTALLED
  | _ => friendly_response 0
  end.

(** The character that opens both markers of a metadata block. *)
Definition LT : codepoint := 60%N.

(** An output with a metadata block in the middle. *)
Definition reply_with_block : pystr :=
  Eval vm_compute in
  u "Hello " ++ EXECUTION_INFO_OPEN ++ u "tokens: 12" ++ EXECUTION_INFO_CLOSE ++
  u " world".

End Notions.

Import Notions.

(* ================================================================== *)
(** * run.py: the message handler *)
(* ================================================================== *)

Module Run.

Import WSClient.

(** The exceptions of a failed look-up. *)
Definition KeyError (key : pystr) : exn := mk_exn OtherException key.
Definition TypeError : exn := mk_exn OtherException (u "TypeError").
Definition AttributeError : exn := mk_exn OtherException (u "AttributeError").

(** The value of a key in a [dict] that came out of [json.loads]. *)
Fixpoint jlookup (key : pystr) (d : list (pystr * json)) : option json :=
  match d with
  | [] => None
  | (k, v) :: rest => if str_eqb key k then Some v else jlookup key rest
  end.

(** [data.get(key, default)] *)
Definition get (data : json) (key : pystr) (default : json) : outcome json :=
  match data with
  | JDict d =>
      match jlookup key d with
      | Some v => Return v
      | None => Return default
      end
  | _ => Raise AttributeError
  end.

(** [m[key]] for a [str] key. *)
Definition subscript (m : json) (key : pystr) : outcome json :=
  match m with
  | JDict d =>
      match jlookup key d with
      | Some v => Return v
      | None => Raise (KeyError key)
      end
  | _ => Raise TypeError
  end.

(** [v == s] for a [str] literal [s]. *)
Definition is_str (s : pystr) (v : json) : bool :=
  match v with
  | JStr t => str_eqb t s
  | _ => false
  end.

(** [if v:] *)
Definition truthy (v : json) : bool :=
  match v with
  | JNull => false
  | JBool b => b
  | JInt z => negb (z =? 0)%Z
  | JStr s => match s with [] => false | _ :: _ => true end
  | JList l => match l with [] => false | _ :: _ => true end
  | JDict d => match d with [] => false | _ :: _ => true end
  end.

(** [[m['data']['text'] for m in message if m['type'] == 'text']] *)
Fixpoint text_parts (message : list json) : outcome (list json) :=
  match message with
  | [] => Return []
  | m :: rest =>
      match subscript m (u "type") with
      | Raise e => Raise e
      | Return ty =>
          if is_str (u "text") ty then
            match subscript m (u "data") with
            | Raise e => Raise e
            | Return data =>
                match subscript data (u "text") with
                | Raise e => Raise e
                | Return text =>
                    match text_parts rest with
                    | Raise e => Raise e
                    | Return parts => Return (text :: parts)
                    end
                end
            end
          else text_parts rest
      end
  end.

(** [''.join(parts)] *)
Fixpoint join (parts : list json) : outcome pystr :=
  match parts with
  | [] => Return []
  | JStr s :: rest =>
      match join rest with
      | Raise e => Raise e
      | Return t => Return (s ++ t)
      end
  | _ :: _ => Raise TypeError
  end.

(** The handler works on the bot and on the client. *)
Record World := {
  bot : ChatBot.Bot;
  client : WSClient.World
}.

Definition in_bot {A} (m : M ChatBot.Bot A) : M World A :=
  fun w =>
    let '(r, b) := m (bot w) in
    (r, {| bot := b; client := client w |}).

Definition in_client {A} (m : M WSClient.World A) : M World A :=
  fun w =>
    let '(r, c) := m (client w) in
    (r, {| bot := bot w; client := c |}).

Definition lift {A} (r : outcome A) : M World A := fun w => (r, w).

Section Handler.
Context {U : Unicode} {J : JsonCodec}.
Variable get_system_prompt_by_mode : pystr -> outcome pystr.
Variable hash : pystr -> Z.

(** [str(v)] for a value that is not a [str]. *)
Variable repr : json -> pystr.

(** [str(v)], also what an f-string puts for [{v}]. *)
Definition str (v : json) : pystr :=
  match v with
  | JStr s => s
  | _ => repr v
  end.

(** [WSClient.send_group_msg] and [WSClient.send_private_msg] with the
    identifier as it came out of the event. *)
Definition send_group_msg (group_id : json) (message : pystr) : M WSClient.World bool :=
  send (JDict [ (u "action", JStr (u "send_group_msg"));
                (u "params", JDict [ (u "group_id", group_id);
                                     (u "message", JStr message) ]) ]).

Definition send_private_msg (user_id : json) (message : pystr) : M WSClient.World bool :=
  send (JDict [ (u "action", JStr (u "send_private_msg"));
                (u "params", JDict [ (u "user_id", user_id);
                                     (u "message", JStr message) ]) ]).

(** The text of the [message] field. *)
Definition message_text (message : json) : outcome pystr :=
  match message with
  | JList segments =>
      match text_parts segments with
      | Raise e => Raise e
      | Return parts => join parts
      end
  | _ => Return (str message)
  end.

(** Does the text start with a colon, ASCII or full-width? *)
Definition is_chat_message (text : pystr) : bool :=
  startswith (u ":") text || startswith (u "：") text.

Definition on_message (data : json) : M World unit :=
  post_type <- lift (get data (u "post_type") JNull) ;;
  if negb (is_str (u "message") post_type) then ret tt
  else
    msg_type <- lift (get data (u "message_type") JNull) ;;
    user_id <- lift (get data (u "user_id") JNull) ;;
    message <- lift (get data (u "message") (JStr [])) ;;
    group_id <- lift (get data (u "group_id") JNull) ;;
    text <- lift (message_text message) ;;
    let text := strip text in
    if is_chat_message text then
      let chat_text := strip (tl text) in
      match chat_text with
      | [] => ret tt
      | _ :: _ =>
          in_client (print (u "[聊天] " ++ str msg_type ++ u ": " ++ chat_text)) ;;;
          let user_key := u "user_" ++ str user_id in
          response <- in_bot (ChatBot.chat get_system_prompt_by_mode hash
                                chat_text user_key None) ;;
          if is_str (u "group") msg_type && truthy group_id then
            in_client (send_group_msg group_id response) ;;; ret tt
          else
            in_client (send_private_msg user_id response) ;;; ret tt
      end
    else ret tt.

End Handler.

(** The message of a segment list: texts of the segments of type [text], in
    order; the other segments count for nothing. *)
Inductive segments_text : list json -> pystr -> Prop :=
| no_segment : segments_text [] []
| text_segment (d data : list (pystr * json)) (s : pystr) (rest : list json) (t : pystr) :
    jlookup (u "type") d = Some (JStr (u "text")) ->
    jlookup (u "data") d = Some (JDict data) ->
    jlookup (u "text") data = Some (JStr s) ->
    segments_text rest t ->
    segments_text (JDict d :: rest) (s ++ t)
| other_segment (d : list (pystr * json)) (ty : json) (rest : list json) (t : pystr) :
    jlookup (u "type") d = Some ty ->
    is_str (u "text") ty = false ->
    segments_text rest t ->
    segments_text (JDict d :: rest) t.

(** The value of a field of an event, as [data.get(key, default)] gives
    it. *)
Definition field (d : list (pystr * json)) (key : pystr) (default : json) : json :=
  match jlookup key d with
  | Some v => v
  | None => default
  end.

(** [repr] for concrete runs: right on [None], on booleans and on
    integers, the values that are formatted in them. *)
Definition example_repr : json -> pystr :=
  fun v =>
    match v with
    | JBool true => u "True"
    | JBool false => u "False"
    | JInt z => u (NilZero.string_of_int (Z.to_int z))
    | _ => u "None"
    end.



(** A text segment and an image segment. *)
Definition hi_segment : json :=
  JDict [ (u "type", JStr (u "text")); (u "data", JDict [ (u "text", JStr (u "hi")) ]) ].

Definition image_segment : json :=
  JDict [ (u "type", JStr (u "image")); (u "data", JDict [ (u "file", JStr (u "a.png")) ]) ].



(** A heartbeat of the framework, and a message with a segment that has
    no [type]. *)
Definition heartbeat_fields : list (pystr * json) :=
  [ (u "post_type", JStr (u "meta_event"));
    (u "meta_event_type", JStr (u "heartbeat")) ].

Definition untyped_fields : list (pystr * json) :=
  [ (u "data", JDict [ (u "text", JStr (u ":hello")) ]) ].

Definition malformed_fields : list (pystr * json) :=
  [ (u "post_type", JStr (u "message"));
    (u "message_type", JStr (u "private"));
    (u "user_id", JInt 42);
    (u "message", JList ([image_segment] ++ JDict untyped_fields :: [])) ].

Definition world0 : World :=
  {| bot := ChatBot.bot0 ChatExecutor.times_out;
     client := WSClient.connected_world |}.

End Run.
(* ================================================================== *)
(** * Properties of the string operations *)
(* ================================================================== *)

Unset Implicit Arguments.

Section StringFacts.
Context {U : Unicode}.

Lemma lstrip_head (s : pystr) (c : codepoint) (t : pystr) :
  lstrip s = c :: t -> isspace c = false.
Proof.
  induction s as [|a s IH]; simpl; [discriminate|].
  destruct (isspace a) eqn:Ha; [exact IH|].
  intros E; injection E as <- _; exact Ha.
Qed.

Lemma lstrip_fixed (c : codepoint) (t : pystr) :
  isspace c = false -> lstrip (c :: t) = c :: t.
Proof. intros H; simpl; now rewrite H. Qed.

Lemma lstrip_idem (s : pystr) : lstrip (lstrip s) = lstrip s.
Proof.
  destruct (lstrip s) as [|c t] eqn:E; [reflexivity|].
  apply lstrip_fixed, (lstrip_head s c t E).
Qed.

Lemma lstrip_snoc (l : pystr) (c : codepoint) :
  lstrip (l ++ [c]) =
  match lstrip l with
  | [] => if isspace c then [] else [c]
  | _ :: _ => lstrip l ++ [c]
  end.
Proof.
  induction l as [|a l IH]; simpl.
  - destruct (isspace c); reflexivity.
  - destruct (isspace a); [exact IH|reflexivity].
Qed.

Lemma rstrip_cons (c : codepoint) (t : pystr) :
  rstrip (c :: t) =
  match rstrip t with
  | [] => if isspace c then [] else [c]
  | _ :: _ => c :: rstrip t
  end.
Proof.
  unfold rstrip; simpl rev; rewrite lstrip_snoc.
  destruct (lstrip (rev t)) as [|a l] eqn:E; simpl rev.
  - destruct (isspace c); reflexivity.
  - rewrite rev_app_distr; simpl.
    destruct (rev l ++ [a]) eqn:E'; [|reflexivity].
    now destruct (rev l).
Qed.

Lemma rstrip_idem (s : pystr) : rstrip (rstrip s) = rstrip s.
Proof. unfold rstrip; now rewrite rev_involutive, lstrip_idem. Qed.

(** Trimming the right end does not uncover blanks on the left. *)
Lemma lstrip_rstrip_fixed (s : pystr) :
  lstrip s = s -> lstrip (rstrip s) = rstrip s.
Proof.
  destruct s as [|c t]; [reflexivity|].
  intros E. pose proof (lstrip_head _ _ _ E) as Hc.
  rewrite rstrip_cons, Hc.
  destruct (rstrip t); apply lstrip_fixed, Hc.
Qed.

(** [strip] is idempotent: a stripped text has nothing left to strip. *)
Lemma strip_idem (s : pystr) : strip (strip s) = strip s.
Proof.
  unfold strip.
  rewrite (lstrip_rstrip_fixed (lstrip s) (lstrip_idem s)).
  apply rstrip_idem.
Qed.

(** A substitution leaves a text alone in which the pattern does not
    match. *)
Lemma re_sub_no_match (pat : pattern) (s : pystr) :
  re_search pat s = false -> re_sub pat s = s.
Proof.
  unfold re_sub. induction s as [|c tl IH]; [reflexivity|].
  simpl. destruct (pat (c :: tl)) as [[|n]|]; try discriminate;
    intros H; now rewrite (IH H).
Qed.

End StringFacts.

(* ================================================================== *)
(** * The execution gateway *)
(* ================================================================== *)

Section Gateway.
Import ChatExecutor.
Context {U : Unicode}.

Lemma set_debug_log_same (w : World) : set_debug_log (debug_log w) w = w.
Proof. now destruct w. Qed.

(** [_log_error] swallows its own failures: it returns, and touches nothing
    but the log. *)
Lemma _log_error_run (kind msg : pystr) (user_id : Z) (prompt : pystr) (w : World) :
  exists l, _log_error kind msg user_id prompt w = (Return tt, set_debug_log l w).
Proof.
  unfold _log_error, bind, gets, try_except, open_log, write_log, ret.
  destruct (DEBUG_LOG_PATH w) as [[|c p]|];
    [exists (debug_log w); now rewrite set_debug_log_same| |
     exists (debug_log w); now rewrite set_debug_log_same].
  destruct (disk_ok w);
    [|exists (debug_log w); now rewrite set_debug_log_same].
  destruct (utf8_encodable (line_text (Header (clock w) kind user_id)));
    [|exists (debug_log w); now rewrite set_debug_log_same].
  cbn [debug_log set_debug_log].
  destruct (utf8_encodable (line_text (PromptLine (firstn 200 prompt))));
    [|eexists; reflexivity].
  destruct (utf8_encodable (line_text (ErrorLine msg))); [|eexists; reflexivity].
  destruct (utf8_encodable (line_text Separator)); eexists; reflexivity.
Qed.

(** Unfold [execute_chat] on the outcome of the external command. *)
Ltac chat_start :=
  cbv [execute_chat try_except bind _call_ai gets ret].

Ltac name_cleaned stdout :=
  change (strip (re_sub oauth2_pattern
            (strip (re_sub EXECUTION_INFO_PATTERN (strip stdout)))))
    with (clean (strip stdout)).

(** Step over a call of [_log_error]. *)
Ltac log_step :=
  cbv beta iota;
  match goal with
  | |- context [_log_error ?k ?m ?i ?p ?w] =>
      let l := fresh "l" in
      let E := fresh "E" in
      destruct (_log_error_run k m i p w) as [l E]; rewrite E
  end.

Lemma friendly_response_nonempty (i : nat) : i < 5 -> friendly_response i <> [].
Proof.
  intros H. do 5 (destruct i as [|i]; [discriminate|]). lia.
Qed.

Lemma friendly_response_fallback (i : nat) :
  i < 5 -> In (friendly_response i) fallback_strings.
Proof.
  intros H. unfold fallback_strings. apply in_or_app; left.
  unfold friendly_response. apply nth_In. exact H.
Qed.

(** [execute_chat] returns, and touches nothing but the log. *)
Lemma execute_chat_frame (prompt : pystr) (user_id : Z) (w : World) :
  exists s l, execute_chat prompt user_id w = (Return s, set_debug_log l w).
Proof.
  chat_start.
  destruct (subprocess_run w (argv prompt)) as [stdout|e].
  - name_cleaned stdout.
    destruct (has_error_keyword (clean (strip stdout)));
      [log_step; eauto|].
    destruct (clean (strip stdout)) as [|c t]; [log_step; eauto|].
    destruct (length (c :: t) <? 5); [log_step; eauto|].
    exists (c :: t), (debug_log w). now rewrite set_debug_log_same.
  - destruct (exn_cls e); log_step; eauto.
Qed.

(** A cleaned text of five characters or more without a failure keyword is
    the answer, and nothing is logged. *)
Lemma execute_chat_success (prompt : pystr) (user_id : Z) (w : World) (stdout : pystr) :
  subprocess_run w (argv prompt) = Return stdout ->
  5 <= length (clean (strip stdout)) ->
  has_error_keyword (clean (strip stdout)) = false ->
  execute_chat prompt user_id w = (Return (clean (strip stdout)), w).
Proof.
  intros Hrun Hlen Hkw. chat_start. rewrite Hrun. name_cleaned stdout.
  rewrite Hkw.
  destruct (clean (strip stdout)) as [|c t] eqn:Ec; [simpl in Hlen; lia|].
  destruct (Nat.ltb_spec (length (c :: t)) 5) as [Hlt|_]; [lia|reflexivity].
Qed.

(** Cleaning is the identity on a cleaned text in which neither pattern
    matches any more. *)
Lemma clean_fixed (s : pystr) :
  re_search EXECUTION_INFO_PATTERN (clean s) = false ->
  re_search oauth2_pattern (clean s) = false ->
  clean (strip (clean s)) = clean s.
Proof.
  intros H1 H2.
  assert (Hs : strip (clean s) = clean s) by apply strip_idem.
  rewrite Hs. unfold clean at 1.
  rewrite (re_sub_no_match _ _ H1), Hs, (re_sub_no_match _ _ H2).
  exact Hs.
Qed.

(** C1.  Whatever the prompt and whatever the external command does
    (prints something, runs into the deadline, is not installed, fails in
    any other way), [execute_chat] returns a string and raises nothing; the
    string is not empty, and it is the cleaned output of the command or one
    of the fixed fallback strings. *)
Theorem execute_chat_always_answers (prompt : pystr) (user_id : Z) (w : World) :
  exists s w',
    execute_chat prompt user_id w = (Return s, w') /\
    s <> [] /\
    (In s fallback_strings \/
     exists stdout, subprocess_run w (argv prompt) = Return stdout /\
                    s = clean (strip stdout)).
Proof.
  chat_start.
  destruct (subprocess_run w (argv prompt)) as [stdout|e].
  - (* the command has printed [stdout] *)
    name_cleaned stdout.
    destruct (has_error_keyword (clean (strip stdout))).
    + log_step. exists (friendly_response 0). eexists. repeat split.
      * apply friendly_response_nonempty; lia.
      * left; apply friendly_response_fallback; lia.
    + destruct (clean (strip stdout)) as [|c t] eqn:Ec.
      * log_step. exists (friendly_response 1). eexists. repeat split.
        -- apply friendly_response_nonempty; lia.
        -- left; apply friendly_response_fallback; lia.
      * destruct (length (c :: t) <? 5).
        -- log_step. exists (friendly_response 2). eexists. repeat split.
           ++ apply friendly_response_nonempty; lia.
           ++ left; apply friendly_response_fallback; lia.
        -- exists (c :: t), w. repeat split; [discriminate|].
           right. exists stdout. split; [reflexivity|]. now rewrite Ec.
  - (* the call has raised [e] *)
    destruct (exn_cls e) eqn:Ecls; log_step;
      try (exists (friendly_response 0); eexists; repeat split;
           [apply friendly_response_nonempty; lia
           |left; apply friendly_response_fallback; lia]).
    + exists (friendly_response 3). eexists. repeat split.
      * apply friendly_response_nonempty; lia.
      * left; apply friendly_response_fallback; lia.
    + exists NOT_INSTALLED. eexists. repeat split; [discriminate|].
      left. unfold fallback_strings. apply in_or_app; right. now left.
Qed.

(** C4.  The failure keywords are looked for before the text is tested for
    being empty or short: a cleaned text of fewer than five characters
    that carries a keyword (in any letter case) is answered with the first
    fallback string and filed under [OUTPUT_ERROR]; the answer is not the
    one for a short output. *)
Theorem keyword_checked_before_length
  (prompt : pystr) (user_id : Z) (w : World) (stdout : pystr) :
  subprocess_run w (argv prompt) = Return stdout ->
  length (clean (strip stdout)) < 5 ->
  has_error_keyword (clean (strip stdout)) = true ->
  execute_chat prompt user_id w =
    (Return (friendly_response 0),
     snd (_log_error (u "OUTPUT_ERROR") (clean (strip stdout)) user_id prompt w)) /\
  friendly_response 0 <> friendly_response 2.
Proof.
  intros Hrun _ Hkw. split; [|discriminate].
  chat_start. rewrite Hrun. name_cleaned stdout.
  rewrite Hkw. log_step. reflexivity.
Qed.

(** C8, as amended.  A cleaned text of five characters or more that
    carries no failure keyword is returned as it is.  Handing the returned
    text to [execute_chat] again gives the same text when neither the
    metadata pattern nor the housekeeping notice matches in it any more. *)
Theorem clean_answer_returned_and_stable
  (prompt : pystr) (user_id : Z) (w : World) (stdout : pystr) :
  subprocess_run w (argv prompt) = Return stdout ->
  5 <= length (clean (strip stdout)) ->
  has_error_keyword (clean (strip stdout)) = false ->
  execute_chat prompt user_id w = (Return (clean (strip stdout)), w) /\
  (re_search EXECUTION_INFO_PATTERN (clean (strip stdout)) = false ->
   re_search oauth2_pattern (clean (strip stdout)) = false ->
   forall prompt' user_id' w',
     subprocess_run w' (argv prompt') = Return (clean (strip stdout)) ->
     execute_chat prompt' user_id' w' = (Return (clean (strip stdout)), w')).
Proof.
  intros Hrun Hlen Hkw. split.
  - exact (execute_chat_success prompt user_id w stdout Hrun Hlen Hkw).
  - intros H1 H2 prompt' user_id' w' Hrun'.
    pose proof (clean_fixed (strip stdout) H1 H2) as Hfix.
    rewrite <- Hfix.
    apply execute_chat_success; [exact Hrun'| |]; rewrite Hfix; assumption.
Qed.

(** ** The asynchronous entry point *)

(** Unfold [execute_chat_async] up to the wait for the result, for a pool
    that accepts work. *)
Ltac async_start Hs :=
  cbv [execute_chat_async submit bind try_except result gets modify raise ret];
  rewrite Hs; cbn [future_wait set_waits].

(** Step over the run of the submitted work on a pool thread. *)
Ltac chat_step :=
  cbv [on_thread];
  match goal with
  | |- context [execute_chat ?p ?i ?w] =>
      let s := fresh "s" in
      let l := fresh "l" in
      let E := fresh "E" in
      destruct (execute_chat_frame p i w) as (s & l & E); rewrite E
  end;
  cbv [invoke];
  cbn [calls set_calls set_running_on set_debug_log set_waits running_on].

(** X25.  A callback that does not raise is invoked once, however the wait
    ends, and [execute_chat_async] returns. *)
Lemma callback_invoked_once_when_it_returns
  (prompt : pystr) (user_id : Z) (callback : Callback) (w : World) :
  pool_shutdown w = false ->
  (forall earlier r, callback earlier r user_id = Return tt) ->
  exists r,
    execute_chat_async prompt user_id callback w =
      (Return tt, snd (execute_chat_async prompt user_id callback w)) /\
    calls (snd (execute_chat_async prompt user_id callback w)) =
      calls w ++ [call_on w r user_id].
Proof.
  intros Hs Hcb. async_start Hs.
  destruct (future_wait w) as [| |e0].
  - chat_step. exists s. rewrite (Hcb (calls w) s). split; reflexivity.
  - exists ASYNC_TIMEOUT. cbn [exn_cls]. cbv [invoke]. rewrite Hcb.
    split; reflexivity.
  - exists (async_fallback e0). unfold async_fallback.
    destruct (exn_cls e0); cbv [invoke]; rewrite Hcb; split; reflexivity.
Qed.

(** Once the pool is shut down, [submit] raises outside the [try]: the
    exception reaches the caller and the callback is not invoked. *)
Lemma async_after_shutdown
  (prompt : pystr) (user_id : Z) (callback : Callback) (w : World) :
  pool_shutdown w = true ->
  exists e,
    exn_cls e = RuntimeError /\
    execute_chat_async prompt user_id callback w = (Raise e, w).
Proof.
  intros Hs. cbv [execute_chat_async submit bind]. rewrite Hs.
  exists (mk_exn RuntimeError (u "cannot schedule new futures after shutdown")).
  split; reflexivity.
Qed.

(** C2 (the code departs from it).  When the submitted work completes and
    the callback raises on the result it is handed, the [except] clauses of
    [execute_chat_async] catch that exception and call the callback a
    second time, with a fallback string: two invocations, not one. *)
Theorem raising_callback_is_invoked_twice
  (prompt : pystr) (user_id : Z) (callback : Callback) (e : exn) (w : World) :
  pool_shutdown w = false ->
  future_wait w = Completes ->
  (forall r, callback (calls w) r user_id = Raise e) ->
  exists s,
    calls (snd (execute_chat_async prompt user_id callback w)) =
      calls w ++ [call_on w s user_id; call_on w (async_fallback e) user_id].
Proof.
  intros Hs Hw Hcb. async_start Hs. rewrite Hw. chat_step.
  exists s. rewrite (Hcb s). unfold async_fallback.
  destruct (exn_cls e); cbn [calls set_calls snd];
    rewrite <- app_assoc; reflexivity.
Qed.

(** C5 (the code departs from it).  [execute_chat_async] does not return at
    once: the thread that calls it waits in [future.result] for up to
    [AI_COMMAND_TIMEOUT] seconds, and every invocation of the callback is
    made on that thread, none on a thread of the pool. *)
Theorem async_call_waits_and_calls_back_on_caller
  (prompt : pystr) (user_id : Z) (callback : Callback) (w : World) :
  pool_shutdown w = false ->
  running_on w = CallingThread ->
  waits (snd (execute_chat_async prompt user_id callback w)) =
    waits w ++ [(CallingThread, AI_COMMAND_TIMEOUT)] /\
  exists new,
    new <> [] /\
    calls (snd (execute_chat_async prompt user_id callback w)) = calls w ++ new /\
    Forall (fun c => call_thread c = CallingThread) new.
Proof.
  intros Hs Ht. async_start Hs. rewrite <- Ht.
  destruct (future_wait w) as [| |e0].
  - (* the work completes *)
    chat_step.
    destruct (callback (calls w) s user_id) as [[]|e].
    + split; [reflexivity|].
      exists [call_on w s user_id]. repeat split; [discriminate|].
      repeat constructor.
    + split; [destruct (exn_cls e); reflexivity|].
      exists [call_on w s user_id; call_on w (async_fallback e) user_id].
      repeat split; [discriminate| |repeat constructor].
      unfold async_fallback.
      destruct (exn_cls e); cbn [calls set_calls snd];
        rewrite <- app_assoc; reflexivity.
  - (* the wait runs into its deadline *)
    split; [reflexivity|].
    exists [call_on w ASYNC_TIMEOUT user_id]. repeat split; [discriminate|].
    repeat constructor.
  - (* unwrapping the result fails *)
    split; [destruct (exn_cls e0); reflexivity|].
    exists [call_on w (async_fallback e0) user_id].
    repeat split; [discriminate| |repeat constructor].
    unfold async_fallback. destruct (exn_cls e0); reflexivity.
Qed.

(** C6, as amended.  The two deadlines surface as two different strings:
    when the external command runs into its deadline, [execute_chat]
    returns the fourth fallback string; when the wait for the result runs
    into its deadline, the callback is handed the string of the [except
    FutureTimeoutError] clause. *)
Theorem deadlines_have_separate_fallbacks
  (prompt : pystr) (user_id : Z) (callback : Callback) (e : exn) (w1 w2 : World) :
  subprocess_run w1 (argv prompt) = Raise e ->
  exn_cls e = TimeoutExpired ->
  pool_shutdown w2 = false ->
  future_wait w2 = DeadlineElapses ->
  fst (execute_chat prompt user_id w1) = Return (friendly_response 3) /\
  calls (snd (execute_chat_async prompt user_id callback w2)) =
    calls w2 ++ [call_on w2 ASYNC_TIMEOUT user_id] /\
  friendly_response 3 <> ASYNC_TIMEOUT.
Proof.
  intros Hrun Hcls Hs Hw. split; [|split; [|discriminate]].
  - chat_start. rewrite Hrun, Hcls. log_step. reflexivity.
  - async_start Hs. rewrite Hw. reflexivity.
Qed.

End Gateway.

(* ================================================================== *)
(** * The session client *)
(* ================================================================== *)

Section Session.
Import WSClient.

(** Unfold the handler of an event. *)
Ltac run_handler :=
  cbv [apply_event connect_attempt _on_open _on_error _on_close disconnect
       set_ws set_connected set_should_stop print call_if_set lift
       bind gets modify ret];
  cbn [self set_self set_stdout ws connected _should_stop ws_url
       on_connect on_disconnect on_error sock_close snd fst].

(** Every event keeps the handle of a connected client in place. *)
Lemma apply_event_invariant (ev : event) (w : World) :
  handle_when_connected (self w) ->
  handle_when_connected (self (apply_event ev w)).
Proof.
  unfold handle_when_connected. intros Inv.
  destruct ev as [h|h|e|code msg|]; run_handler.
  - destruct (_should_stop (self w)); cbn; [exact Inv|discriminate].
  - destruct (on_connect w) as [[[]|e]|]; cbn; discriminate.
  - destruct (on_error w) as [f|]; [destruct (f e) as [[]|e']|]; cbn; discriminate.
  - destruct (on_disconnect w) as [[[]|e]|]; cbn; discriminate.
  - destruct (ws (self w)) as [h|] eqn:Ews; cbn.
    + destruct (sock_close w h) as [[]|e]; cbn; [discriminate|].
      intros _. discriminate.
    + discriminate.
Qed.

Lemma run_events_invariant (evs : list event) (w : World) :
  handle_when_connected (self w) ->
  handle_when_connected (self (run_events evs w)).
Proof.
  revert w. induction evs as [|ev evs IH]; intros w Inv; [exact Inv|].
  apply IH, apply_event_invariant, Inv.
Qed.

(** Events do not write to the transport and do not replace it. *)
Lemma apply_event_transport (ev : event) (w : World) :
  wire (apply_event ev w) = wire w /\ sock_send (apply_event ev w) = sock_send w.
Proof.
  destruct ev as [h|h|e|code msg|]; run_handler.
  - destruct (_should_stop (self w)); split; reflexivity.
  - destruct (on_connect w) as [[[]|e]|]; split; reflexivity.
  - destruct (on_error w) as [f|]; [destruct (f e) as [[]|e']|]; split; reflexivity.
  - destruct (on_disconnect w) as [[[]|e]|]; split; reflexivity.
  - destruct (ws (self w)) as [h|]; cbn;
      [destruct (sock_close w h) as [[]|e]|]; split; reflexivity.
Qed.

Lemma run_events_transport (evs : list event) (w : World) :
  wire (run_events evs w) = wire w /\ sock_send (run_events evs w) = sock_send w.
Proof.
  revert w. induction evs as [|ev evs IH]; intros w; [split; reflexivity|].
  simpl. destruct (IH (apply_event ev w)) as [-> ->]. apply apply_event_transport.
Qed.

Lemma at_lock_transport (w : World) :
  wire (at_lock w) = wire w /\ sock_send (at_lock w) = sock_send w.
Proof.
  unfold at_lock.
  destruct (run_events_transport (pending w) (set_pending [] w)) as [-> ->].
  split; reflexivity.
Qed.

(** C3, as amended.  After any sequence of connection attempts, opens,
    errors, closes and calls of [disconnect] on a new client, a client
    whose [connected] flag is set has a handle in [self.ws].  (The converse
    does not hold: a handle is there from the start of an attempt on, and
    stays after an error and after [disconnect].) *)
Theorem connected_client_has_handle (evs : list event) (w : World) :
  self w = init ->
  connected (self (run_events evs w)) = true ->
  ws (self (run_events evs w)) <> None.
Proof.
  intros Hinit. apply run_events_invariant.
  unfold handle_when_connected. rewrite Hinit. discriminate.
Qed.

Context {J : JsonCodec}.

(** Unfold [send]. *)
Ltac send_start :=
  cbv [send is_connected lock_released print bind gets modify ret try_except lift].

(** Not connected: [send] answers [False] and writes nothing. *)
Lemma send_not_connected (data : json) (w : World) :
  connected (self w) = false ->
  fst (send data w) = Return false /\ wire (snd (send data w)) = wire w.
Proof.
  intros Hc. send_start. rewrite Hc. split; reflexivity.
Qed.

(** Connected at the check, handle [h] under the lock: the serialised data
    goes to [h]; [True] when the write succeeds, [False] when it raises. *)
Lemma send_with_handle (data : json) (w : World) (h : handle) :
  connected (self w) = true ->
  ws (self (at_lock w)) = Some h ->
  match sock_send w h (json_dumps data) with
  | Return _ =>
      fst (send data w) = Return true /\
      wire (snd (send data w)) = wire w ++ [(h, json_dumps data)]
  | Raise _ =>
      fst (send data w) = Return false /\
      wire (snd (send data w)) = wire w
  end.
Proof.
  intros Hc Hws. send_start. rewrite Hc. cbn [negb]. rewrite Hws.
  destruct (at_lock_transport w) as [Ew Es]. rewrite Es.
  destruct (sock_send w h (json_dumps data)) as [[]|e]; cbn.
  - now rewrite Ew.
  - now rewrite Ew.
Qed.

(** C9.  When the connectivity check of [send] passes and [self.ws] is
    [None] once [send] holds the lock for the write, [send] returns [True]
    and writes nothing.  With no other thread in between, this is the state
    in which [connected] is set and [self.ws] is [None]. *)
Theorem send_true_without_handle (data : json) (w : World) :
  connected (self w) = true ->
  ws (self (at_lock w)) = None ->
  fst (send data w) = Return true /\ wire (snd (send data w)) = wire w.
Proof.
  intros Hc Hws. send_start.
  rewrite Hc. cbn [negb].
  rewrite Hws.
  split; [reflexivity|].
  cbn [snd]. apply at_lock_transport.
Qed.

(** Unfold [_on_message]. *)
Ltac message_start :=
  cbv [_on_message try_except bind lift gets ret raise print modify].

(** What [_on_message] does with an exception of the message handler on a
    decoded frame: it leaves [_on_message] unless it is a
    [JSONDecodeError]; that one is caught, and the frame is logged as not
    being JSON, as a frame that cannot be decoded is. *)
Theorem handler_exception_propagates_unless_decode_error
  (h : handle) (message : pystr) (data : json) (f : json -> outcome unit)
  (e : exn) (w : World) :
  json_loads message = Return data ->
  on_message w = Some f ->
  f data = Raise e ->
  (exn_cls e <> JSONDecodeError -> _on_message h message w = (Raise e, w)) /\
  (exn_cls e = JSONDecodeError ->
   _on_message h message w =
     (Return tt, set_stdout (stdout w ++ [u "[WS] 非JSON消息: " ++ message]) w)) /\
  (forall message' e',
     json_loads message' = Raise e' ->
     exn_cls e' = JSONDecodeError ->
     _on_message h message' w =
       (Return tt, set_stdout (stdout w ++ [u "[WS] 非JSON消息: " ++ message']) w)).
Proof.
  intros Hl Hf He. split; [|split].
  - (* the handler raises something else *)
    intros Hne. message_start. rewrite Hl, Hf, He.
    destruct (exn_cls e); congruence.
  - (* the handler raises a decode error *)
    intros Heq. message_start. rewrite Hl, Hf, He, Heq. reflexivity.
  - (* the frame is not JSON *)
    intros message' e' Hl' Hc'. message_start. rewrite Hl', Hc'. reflexivity.
Qed.

End Session.

(* ================================================================== *)
(** * Concrete runs *)
(* ================================================================== *)

Section GatewayRuns.
Import ChatExecutor.
#[local] Existing Instance basic_unicode.

Lemma raising_callback_is_invoked_twice_witness :
  exists s,
    calls (snd (execute_chat_async (u "hi") 7 failing_once
                  (world0 (answers (u "hello world")) Completes))) =
      calls (world0 (answers (u "hello world")) Completes) ++
      [call_on (world0 (answers (u "hello world")) Completes) s 7;
       call_on (world0 (answers (u "hello world")) Completes)
         (async_fallback send_failed) 7].
Proof.
  apply raising_callback_is_invoked_twice.
  - reflexivity.
  - reflexivity.
  - intros r. reflexivity.
Defined.

Lemma keyword_checked_before_length_witness :
  length (clean (strip (u "错误"))) < 5 /\
  has_error_keyword (clean (strip (u "错误"))) = true /\
  fst (execute_chat (u "hi") 7 (world0 (answers (u "错误")) Completes)) =
    Return (friendly_response 0).
Proof.
  assert (Hlen : length (clean (strip (u "错误"))) < 5) by (vm_compute; lia).
  assert (Hkw : has_error_keyword (clean (strip (u "错误"))) = true) by reflexivity.
  split; [exact Hlen|split; [exact Hkw|]].
  destruct (keyword_checked_before_length (u "hi") 7
              (world0 (answers (u "错误")) Completes) (u "错误")
              eq_refl Hlen Hkw) as [E _].
  rewrite E. reflexivity.
Defined.

Lemma async_call_waits_and_calls_back_on_caller_witness :
  waits (snd (execute_chat_async (u "hi") 7 quiet_callback
                (world0 (answers (u "hello world")) Completes))) =
    waits (world0 (answers (u "hello world")) Completes) ++
    [(CallingThread, AI_COMMAND_TIMEOUT)] /\
  exists new,
    new <> [] /\
    calls (snd (execute_chat_async (u "hi") 7 quiet_callback
                  (world0 (answers (u "hello world")) Completes))) =
      calls (world0 (answers (u "hello world")) Completes) ++ new /\
    Forall (fun c => call_thread c = CallingThread) new.
Proof.
  apply async_call_waits_and_calls_back_on_caller; reflexivity.
Defined.

(** C6, the statement as it stands fails: the deadline of the external
    command and the deadline of the wait give different strings. *)
Lemma deadline_fallbacks_differ :
  fst (execute_chat (u "hi") 7 (world0 times_out Completes)) =
    Return (friendly_response 3) /\
  map call_result
    (calls (snd (execute_chat_async (u "hi") 7 quiet_callback
                   (world0 (answers (u "hello world")) DeadlineElapses)))) =
    [ASYNC_TIMEOUT] /\
  friendly_response 3 <> ASYNC_TIMEOUT.
Proof.
  split; [vm_compute; reflexivity|].
  split; [vm_compute; reflexivity|discriminate].
Qed.

Lemma deadlines_have_separate_fallbacks_witness :
  fst (execute_chat (u "hi") 7 (world0 times_out Completes)) =
    Return (friendly_response 3) /\
  calls (snd (execute_chat_async (u "hi") 7 quiet_callback
                (world0 (answers (u "hello world")) DeadlineElapses))) =
    calls (world0 (answers (u "hello world")) DeadlineElapses) ++
    [call_on (world0 (answers (u "hello world")) DeadlineElapses) ASYNC_TIMEOUT 7] /\
  friendly_response 3 <> ASYNC_TIMEOUT.
Proof.
  apply (deadlines_have_separate_fallbacks (u "hi") 7 quiet_callback
           (mk_exn TimeoutExpired (u "timed out after 60 seconds")));
    reflexivity.
Defined.

(** C8, the statement as it stands fails: cutting the inner block out of
    [nested_block] leaves a text with a complete block; it has more than
    five characters and no keyword, so it is returned; handed in again, it
    is cleaned to the empty text and answered with a fallback string. *)
Lemma recleaning_changes_answer :
  clean (strip nested_block) = spliced_block /\
  5 <= length spliced_block /\
  has_error_keyword spliced_block = false /\
  fst (execute_chat (u "hi") 7 (world0 (answers nested_block) Completes)) =
    Return spliced_block /\
  fst (execute_chat (u "hi") 7 (world0 (answers spliced_block) Completes)) =
    Return (friendly_response 1) /\
  friendly_response 1 <> spliced_block.
Proof.
  split; [vm_compute; reflexivity|].
  split; [vm_compute; lia|].
  split; [vm_compute; reflexivity|].
  split; [vm_compute; reflexivity|].
  split; [vm_compute; reflexivity|discriminate].
Qed.

Lemma clean_answer_returned_and_stable_witness :
  execute_chat (u "hi") 7 (world0 (answers (u " hello world ")) Completes) =
    (Return (clean (strip (u " hello world "))),
     world0 (answers (u " hello world ")) Completes) /\
  execute_chat (u "again") 8
    (world0 (answers (clean (strip (u " hello world ")))) Completes) =
    (Return (clean (strip (u " hello world "))),
     world0 (answers (clean (strip (u " hello world ")))) Completes).
Proof.
  assert (Hlen : 5 <= length (clean (strip (u " hello world "))))
    by (vm_compute; lia).
  destruct (clean_answer_returned_and_stable (u "hi") 7
              (world0 (answers (u " hello world ")) Completes) (u " hello world ")
              eq_refl Hlen eq_refl) as [E1 E2].
  split; [exact E1|].
  apply E2; reflexivity.
Defined.

End GatewayRuns.

Section SessionRuns.
Import WSClient.
#[local] Existing Instance example_codec.

(** C3, the statement as it stands fails: at the start of a connection
    attempt the client holds a handle and is not connected. *)
Lemma handle_without_connection :
  ~ (ws (self (run_events [EvAttempt 1] world0)) <> None <->
     connected (self (run_events [EvAttempt 1] world0)) = true).
Proof.
  intros [H _]. assert (E : false = true) by (apply H; discriminate).
  discriminate E.
Qed.

Lemma connected_client_has_handle_witness :
  ws (self (run_events [EvAttempt 1; EvOpen 1] world0)) <> None.
Proof.
  apply connected_client_has_handle; reflexivity.
Defined.

(** C7 (the code departs from it).  The client is connected, with a handle,
    when [send] is called; the transport closes between the connectivity
    check and the write; [send] returns [True] and nothing is written. *)
Theorem send_reports_success_without_writing :
  connected (self closing_world) = true /\
  ws (self closing_world) = Some 1 /\
  fst (send_private_msg 42 (u "hi") closing_world) = Return true /\
  wire (snd (send_private_msg 42 (u "hi") closing_world)) = [].
Proof.
  split; [reflexivity|].
  split; [reflexivity|].
  split; vm_compute; reflexivity.
Qed.

Lemma send_true_without_handle_witness :
  connected (self closing_world) = true /\
  ws (self (at_lock closing_world)) = None /\
  fst (send (JDict []) closing_world) = Return true /\
  wire (snd (send (JDict []) closing_world)) = wire closing_world.
Proof.
  assert (Hc : connected (self closing_world) = true) by reflexivity.
  assert (Hw : ws (self (at_lock closing_world)) = None) by reflexivity.
  destruct (send_true_without_handle (JDict []) closing_world Hc Hw) as [E1 E2].
  repeat split; assumption.
Defined.

(** C10 (the code departs from it).  The frame is valid JSON and the
    handler raises a [JSONDecodeError] of its own.  The call of the handler
    stands inside the [try], so [_on_message] catches the exception, logs
    the frame as not being JSON and returns; on the same frame the
    [KeyError] of another handler reaches the transport layer. *)
Lemma handler_decode_error_is_caught :
  json_loads (u "{}") = Return (JDict []) /\
  reparsing_handler (JDict []) = Raise decode_error /\
  _on_message 1 (u "{}") (set_on_message (Some reparsing_handler) world0) =
    (Return tt,
     set_stdout [u "[WS] 非JSON消息: " ++ u "{}"]
       (set_on_message (Some reparsing_handler) world0)) /\
  _on_message 1 (u "{}") (set_on_message (Some indexing_handler) world0) =
    (Raise key_error, set_on_message (Some indexing_handler) world0).
Proof.
  split; [reflexivity|].
  split; [reflexivity|].
  split; vm_compute; reflexivity.
Qed.

Lemma handler_exception_propagates_unless_decode_error_witness :
  _on_message 1 (u "{}") (set_on_message (Some indexing_handler) world0) =
    (Raise key_error, set_on_message (Some indexing_handler) world0).
Proof.
  destruct (handler_exception_propagates_unless_decode_error
              (J := example_codec) 1 (u "{}") (JDict [])
              indexing_handler key_error
              (set_on_message (Some indexing_handler) world0)
              eq_refl eq_refl eq_refl) as [E _].
  apply E. discriminate.
Defined.

End SessionRuns.

(* ================================================================== *)
(** * Lines and line ends *)
(* ================================================================== *)

Section LineFacts.

Lemma readlines_concat (s : pystr) : concat (readlines s) = s.
Proof.
  induction s as [|c tl IH]; [reflexivity|].
  simpl. destruct (c =? LF)%N.
  - simpl. now rewrite IH.
  - destruct (readlines tl) as [|line lines]; simpl in *; now rewrite <- IH.
Qed.

Lemma readlines_nil (s : pystr) : readlines s = [] -> s = [].
Proof.
  intros H. rewrite <- (readlines_concat s), H. reflexivity.
Qed.

(** What is behind the first line is again the lines of a text. *)
Lemma readlines_tail (s : pystr) (l : pystr) (ls : list pystr) :
  readlines s = l :: ls -> exists s', ls = readlines s'.
Proof.
  revert l ls. induction s as [|c tl IH]; intros l ls; [discriminate|].
  simpl. destruct (c =? LF)%N.
  - intros E. injection E as _ <-. now exists tl.
  - destruct (readlines tl) as [|line lines] eqn:El.
    + intros E. injection E as _ <-. now exists [].
    + intros E. injection E as _ <-. apply (IH line lines eq_refl).
Qed.

(** Writing a tail of the lines of a text and reading it back gives these
    lines. *)
Lemma readlines_skipn (k : nat) (s : pystr) :
  readlines (concat (skipn k (readlines s))) = skipn k (readlines s).
Proof.
  revert s. induction k as [|k IH]; intros s.
  - simpl. now rewrite readlines_concat.
  - destruct (readlines s) as [|l ls] eqn:El; [reflexivity|].
    simpl. destruct (readlines_tail s l ls El) as [s' ->]. apply IH.
Qed.

(** A text that ends in a line feed ends a line: what follows is split on
    its own. *)
Lemma readlines_after_lf (a b : pystr) :
  readlines (a ++ LF :: b) = readlines (a ++ [LF]) ++ readlines b.
Proof.
  induction a as [|c a IH]; [reflexivity|].
  simpl. destruct (c =? LF)%N.
  - simpl. now rewrite IH.
  - rewrite IH.
    destruct (readlines (a ++ [LF])) as [|l ls] eqn:El; [|reflexivity].
    apply readlines_nil in El. now destruct a.
Qed.

(** The number of lines of a text is at most one more than its line
    feeds. *)
Lemma readlines_length (s : pystr) : length (readlines s) <= S (count_char LF s).
Proof.
  unfold count_char. induction s as [|c tl IH]; [simpl; lia|].
  cbn [readlines filter]. rewrite (N.eqb_sym LF c).
  destruct (c =? LF)%N; cbn [length].
  - lia.
  - destruct (readlines tl); cbn [length] in *; lia.
Qed.

Lemma universal_newlines_no_cr (s : pystr) : ~ In CR (universal_newlines s).
Proof.
  assert (H : forall n s, length s <= n -> ~ In CR (universal_newlines s)).
  { clear s. induction n as [|n IH]; intros [|c tl] Hn; simpl in *;
      try (intros []); try lia.
    destruct (c =? CR)%N eqn:Ec.
    - intros [E|Hin]; [discriminate E|].
      destruct tl as [|d tl']; [destruct Hin|].
      destruct (d =? LF)%N.
      + apply (IH tl'); [simpl in Hn; lia|exact Hin].
      + apply (IH (d :: tl')); [simpl in *; lia|exact Hin].
    - intros [E|Hin].
      + subst c. now rewrite N.eqb_refl in Ec.
      + apply (IH tl); [lia|exact Hin]. }
  apply (H (length s)). lia.
Qed.

(** A text without carriage returns is read as it is. *)
Lemma universal_newlines_id (s : pystr) : ~ In CR s -> universal_newlines s = s.
Proof.
  induction s as [|c tl IH]; [reflexivity|].
  intros Hn. simpl.
  destruct (c =? CR)%N eqn:Ec.
  - apply N.eqb_eq in Ec. subst c. exfalso. apply Hn. now left.
  - rewrite IH; [reflexivity|]. intros Hin. apply Hn. now right.
Qed.

(** A line feed that is written is read as a line feed, and what follows it
    is read on its own. *)
Lemma universal_newlines_after_lf (a : pystr) :
  exists y, forall b,
    universal_newlines (a ++ LF :: b) = y ++ LF :: universal_newlines b.
Proof.
  assert (H : forall n a, length a <= n ->
            exists y, forall b,
              universal_newlines (a ++ LF :: b) = y ++ LF :: universal_newlines b).
  { clear a. induction n as [|n IH]; intros [|c tl] Hn; simpl in Hn; try lia;
      try (exists []; reflexivity).
    destruct (c =? CR)%N eqn:Ec.
    - destruct tl as [|d tl'].
      + exists []. intros b. cbn [app universal_newlines]. rewrite Ec.
        reflexivity.
      + destruct (d =? LF)%N eqn:Ed.
        * destruct (IH tl') as [y Hy]; [simpl in Hn; lia|].
          exists (LF :: y). intros b.
          change ((c :: d :: tl') ++ LF :: b) with (c :: d :: (tl' ++ LF :: b)).
          cbn [universal_newlines]. rewrite Ec, Ed, Hy. reflexivity.
        * destruct (IH (d :: tl')) as [y Hy]; [simpl in *; lia|].
          exists (LF :: y). intros b. specialize (Hy b).
          change ((c :: d :: tl') ++ LF :: b) with (c :: d :: (tl' ++ LF :: b)).
          change ((d :: tl') ++ LF :: b) with (d :: (tl' ++ LF :: b)) in Hy.
          remember (tl' ++ LF :: b) as rest.
          cbn [universal_newlines] in *. rewrite Ec, Ed.
          destruct (d =? CR)%N; rewrite Hy; reflexivity.
    - destruct (IH tl) as [y Hy]; [lia|].
      exists (c :: y). intros b.
      change ((c :: tl) ++ LF :: b) with (c :: (tl ++ LF :: b)).
      cbn [universal_newlines]. rewrite Ec, Hy. reflexivity. }
  apply (H (length a)). lia.
Qed.

Lemma utf8_encodable_app (a b : pystr) :
  utf8_encodable (a ++ b) = utf8_encodable a && utf8_encodable b.
Proof. apply forallb_app. Qed.

Lemma universal_newlines_encodable (s : pystr) :
  utf8_encodable s = true -> utf8_encodable (universal_newlines s) = true.
Proof.
  assert (H : forall n s, length s <= n -> utf8_encodable s = true ->
                          utf8_encodable (universal_newlines s) = true).
  { clear s. induction n as [|n IH]; intros [|c tl] Hn; simpl in *;
      try reflexivity; try lia.
    intros He. apply andb_prop in He as [Hc Htl].
    destruct (c =? CR)%N.
    - simpl. destruct tl as [|d tl']; [reflexivity|].
      simpl in Htl. apply andb_prop in Htl as [Hd Htl'].
      destruct (d =? LF)%N.
      + apply IH; [simpl in Hn; lia|exact Htl'].
      + apply IH; [simpl in *; lia|]. simpl. now rewrite Hd, Htl'.
    - simpl. rewrite Hc. apply IH; [lia|exact Htl]. }
  apply (H (length s)). lia.
Qed.

(** The lines of an encodable text are encodable, and so are the last of
    them. *)
Lemma concat_encodable (ls : list pystr) :
  utf8_encodable (concat ls) = forallb utf8_encodable ls.
Proof.
  induction ls as [|l ls IH]; [reflexivity|].
  simpl. now rewrite utf8_encodable_app, IH.
Qed.

Lemma skipn_forallb {A} (f : A -> bool) (k : nat) (l : list A) :
  forallb f l = true -> forallb f (skipn k l) = true.
Proof.
  revert l. induction k as [|k IH]; intros [|x l]; simpl; auto.
  intros H. apply andb_prop in H as [_ H]. now apply IH.
Qed.

Lemma concat_skipn_in {A} (x : A) (k : nat) (ls : list (list A)) :
  In x (concat (skipn k ls)) -> In x (concat ls).
Proof.
  revert ls. induction k as [|k IH]; intros [|l ls]; simpl; auto.
  intros H. apply in_or_app. right. now apply IH.
Qed.

(** The last [n] of two lists, the second with at most [n] elements, end
    with the second. *)
Lemma last_n_app {A} (n : nat) (a b : list A) :
  length b <= n -> exists a', last_n n (a ++ b) = a' ++ b.
Proof.
  intros Hb. unfold last_n. rewrite length_app.
  exists (skipn (length a + length b - n) a).
  rewrite skipn_app.
  replace (length a + length b - n - length a) with 0 by lia.
  reflexivity.
Qed.

End LineFacts.

(* ================================================================== *)
(** * The mode manager *)
(* ================================================================== *)

Section ModesFacts.
Import ChatModes.

Lemma str_eqb_eq (a b : pystr) : str_eqb a b = true <-> a = b.
Proof.
  unfold str_eqb. destruct (str_eq_dec a b); split; congruence.
Qed.

Lemma dict_set_same {V} (k : pystr) (v : V) (d : dict V) : dict_set k v d k = Some v.
Proof. unfold dict_set. now destruct (str_eq_dec k k). Qed.

Lemma dict_set_other {V} (k k' : pystr) (v : V) (d : dict V) :
  k' <> k -> dict_set k v d k' = d k'.
Proof. intros H. unfold dict_set. destruct (str_eq_dec k k'); congruence. Qed.

Lemma dict_del_same {V} (k : pystr) (d : dict V) : dict_del k d k = None.
Proof. unfold dict_del. now destruct (str_eq_dec k k). Qed.

Lemma dict_del_other {V} (k k' : pystr) (d : dict V) :
  k' <> k -> dict_del k d k' = d k'.
Proof. intros H. unfold dict_del. destruct (str_eq_dec k k'); congruence. Qed.

Lemma apply_op_available (o : op) (self : Manager) :
  holds_available self -> holds_available (apply_op o self).
Proof.
  intros Inv k m. destruct o as [k0 m0|k0]; simpl.
  - unfold set_mode. destruct (is_available m0) eqn:Em; simpl; [|apply Inv].
    destruct (str_eq_dec k k0) as [->|Hne].
    + rewrite dict_set_same. now intros [= <-].
    + rewrite dict_set_other by exact Hne. apply Inv.
  - unfold reset_mode. destruct (dict_in k0 self); [|apply Inv].
    destruct (str_eq_dec k k0) as [->|Hne].
    + now rewrite dict_del_same.
    + rewrite dict_del_other by exact Hne. apply Inv.
Qed.

Lemma run_ops_available (ops : list op) (self : Manager) :
  holds_available self -> holds_available (run_ops ops self).
Proof.
  revert self. induction ops as [|o ops IH]; intros self Inv; [exact Inv|].
  apply IH, apply_op_available, Inv.
Qed.

Lemma available_described (m : pystr) :
  is_available m = true -> get_mode_description m <> UNKNOWN_MODE.
Proof.
  unfold is_available, get_mode_description. cbn [AVAILABLE_MODES existsb lookup fst].
  destruct (str_eqb m _); [discriminate|].
  destruct (str_eqb m _); [discriminate|].
  destruct (str_eqb m _); [discriminate|].
  destruct (str_eqb m _); [discriminate|].
  discriminate.
Qed.

(** X1.  Setting a session to an available mode succeeds; the session then
    reads that mode, and every other session reads what it read before. *)
Theorem set_mode_then_get_mode (k mode : pystr) (self : Manager) :
  is_available mode = true ->
  fst (set_mode k mode self) = true /\
  get_mode k (snd (set_mode k mode self)) = mode /\
  forall k', k' <> k ->
    get_mode k' (snd (set_mode k mode self)) = get_mode k' self.
Proof.
  intros Hm. unfold set_mode. rewrite Hm. cbn [negb fst snd].
  split; [reflexivity|]. unfold get_mode, dict_get. split.
  - now rewrite dict_set_same.
  - intros k' Hne. now rewrite dict_set_other.
Qed.

(** X2.  Whatever calls of [set_mode] and [reset_mode] a new manager has
    seen, [get_mode] answers with an available mode for every session, so
    that its description is never the one for an unknown mode. *)
Theorem get_mode_always_available (ops : list op) (k : pystr) :
  is_available (get_mode k (run_ops ops new)) = true /\
  get_mode_description (get_mode k (run_ops ops new)) <> UNKNOWN_MODE.
Proof.
  assert (Ha : is_available (get_mode k (run_ops ops new)) = true).
  { assert (Inv : holds_available (run_ops ops new)).
    { apply run_ops_available. intros k0 m. discriminate. }
    unfold get_mode, dict_get.
    destruct (run_ops ops new k) as [m|] eqn:Ek.
    - exact (Inv k m Ek).
    - reflexivity. }
  split; [exact Ha|]. apply available_described, Ha.
Qed.

(** X3.  After [reset_mode] the session reads the default mode, whether it
    had a mode or not, and every other session reads what it read
    before. *)
Theorem reset_mode_restores_default (k : pystr) (self : Manager) :
  get_mode k (reset_mode k self) = DEFAULT_MODE /\
  forall k', k' <> k -> get_mode k' (reset_mode k self) = get_mode k' self.
Proof.
  unfold reset_mode, get_mode, dict_get, dict_in.
  destruct (self k) as [m|] eqn:Ek.
  - split.
    + now rewrite dict_del_same.
    + intros k' Hne. now rewrite dict_del_other.
  - split; [now rewrite Ek|reflexivity].
Qed.

End ModesFacts.

(* ================================================================== *)
(** * The conversation history *)
(* ================================================================== *)

Section HistoryFacts.
Import ChatHistory.

(** Unfold the methods down to the file operations. *)
Ltac history_start :=
  cbv [save_history get_history clear_history history_file exists_
       try_except bind gets ret print modify];
  cbn [history_dir set_files set_stdout set_opened_for_writing files dirs
       stat_error open_error remove_error opened_for_writing stdout];
  repeat match goal with
    | |- context [os_path_join (history_dir ?w) (?k ++ u ".txt")] =>
        change (os_path_join (history_dir w) (k ++ u ".txt"))
          with (history_path w k)
    end.

Lemma split_lf_length (s : pystr) : 1 <= length (split_lf s).
Proof.
  induction s as [|c tl IH]; simpl; [lia|].
  destruct (c =? LF)%N; simpl; [lia|].
  destruct (split_lf tl); simpl in *; lia.
Qed.

(** [get_history] returns and changes nothing. *)
Lemma get_history_run (user_key : pystr) (w : World) :
  exists h, get_history user_key w = (Return h, w).
Proof.
  history_start. unfold read_text, open_refused.
  destruct (negb _ && _); [|now exists []].
  destruct (dirs w _); [now exists []|].
  destruct (open_error w ReadMode _); [now exists []|].
  destruct (files w _) as [text|]; [|now exists []].
  destruct (utf8_encodable text); eauto.
Qed.

(** What [get_history] reads from a file it can read. *)
Lemma get_history_of (user_key text : pystr) (w : World) :
  files w (history_path w user_key) = Some text ->
  stat_error w (history_path w user_key) = false ->
  dirs w (history_path w user_key) = false ->
  open_error w ReadMode (history_path w user_key) = None ->
  utf8_encodable text = true ->
  get_history user_key w = (Return (universal_newlines text), w).
Proof.
  intros Hf Hs Hd Ho He. history_start. unfold read_text, open_refused, dict_in.
  rewrite Hs, Hd, Hf. cbn [negb andb orb]. cbv beta iota.
  now rewrite Hd, Ho, Hf, He.
Qed.

(** The history kept is at most [MAX_HISTORY_LINES] lines long. *)
Lemma kept_length (t : pystr) : length (readlines (kept t)) <= MAX_HISTORY_LINES.
Proof.
  unfold kept.
  destruct (Nat.ltb_spec MAX_HISTORY_LINES (length (readlines t))) as [Hlt|Hge];
    [|exact Hge].
  unfold last_n. rewrite readlines_skipn, length_skipn. lia.
Qed.

Lemma kept_no_cr (t : pystr) : ~ In CR t -> ~ In CR (kept t).
Proof.
  intros Ht. unfold kept, last_n.
  destruct (MAX_HISTORY_LINES <? length (readlines t)); [|exact Ht].
  intros Hin. apply concat_skipn_in in Hin.
  now rewrite readlines_concat in Hin.
Qed.

Lemma kept_encodable (t : pystr) :
  utf8_encodable t = true ->
  forallb utf8_encodable (last_n MAX_HISTORY_LINES (readlines t)) = true.
Proof.
  intros Ht. unfold last_n. apply skipn_forallb.
  now rewrite <- concat_encodable, readlines_concat.
Qed.

(** The history kept ends with a response of at most [MAX_HISTORY_LINES]
    lines that was appended behind a line feed. *)
Lemma kept_suffix (y response : pystr) :
  count_char LF response < MAX_HISTORY_LINES ->
  exists x, kept (y ++ LF :: response) = x ++ response.
Proof.
  intros Hn. unfold kept.
  destruct (MAX_HISTORY_LINES <? length (readlines (y ++ LF :: response))).
  - rewrite readlines_after_lf.
    destruct (last_n_app MAX_HISTORY_LINES (readlines (y ++ [LF]))
                (readlines response)) as [a' Ha].
    { pose proof (readlines_length response). lia. }
    rewrite Ha, concat_app, readlines_concat. eauto.
  - exists (y ++ [LF]). now rewrite <- app_assoc.
Qed.

(** When the file system lets it, [save_history] leaves in the file of the
    user a text that reads back as [kept] of the old text, a line feed and
    the response. *)
Lemma save_history_ok (user_key response : pystr) (w : World) :
  usable w (history_path w user_key) ->
  utf8_encodable response = true ->
  exists final,
    files (snd (save_history user_key response w)) (history_path w user_key)
      = Some final /\
    utf8_encodable final = true /\
    universal_newlines final =
      kept (universal_newlines
              (dict_get (history_path w user_key) [] (files w) ++ LF :: response)) /\
    history_dir (snd (save_history user_key response w)) = history_dir w /\
    dirs (snd (save_history user_key response w)) = dirs w /\
    stat_error (snd (save_history user_key response w)) = stat_error w /\
    open_error (snd (save_history user_key response w)) = open_error w.
Proof.
  intros (Hstat & Hdir & Hopen & Hold) Hresp. history_start.
  set (path := history_path w user_key) in *.
  set (old := dict_get path [] (files w)) in *.
  assert (Hnew : utf8_encodable (old ++ LF :: response) = true).
  { rewrite utf8_encodable_app, Hold. simpl. exact Hresp. }
  cbv [append_text note_open open_refused bind modify].
  cbn [files dirs open_error set_files set_opened_for_writing].
  rewrite Hdir, (Hopen AppendMode). fold old.
  change (utf8_encodable ([LF] ++ response)) with (utf8_encodable response).
  rewrite Hresp. cbn [files set_files open_error dirs].
  unfold read_text, open_refused.
  cbn [files set_files set_opened_for_writing open_error dirs].
  rewrite Hdir, (Hopen ReadMode), dict_set_same.
  change (old ++ [LF] ++ response) with (old ++ LF :: response).
  rewrite Hnew.
  set (t := universal_newlines (old ++ LF :: response)).
  assert (Ht : utf8_encodable t = true) by now apply universal_newlines_encodable.
  assert (Hcr : ~ In CR t) by apply universal_newlines_no_cr.
  pose proof (kept_no_cr t Hcr) as Hkcr.
  unfold kept in *.
  destruct (MAX_HISTORY_LINES <? length (readlines t)).
  - cbv [write_lines note_open open_refused bind modify].
    cbn [files set_files set_opened_for_writing open_error dirs].
    rewrite Hdir, (Hopen WriteMode), (kept_encodable t Ht).
    cbn [snd files set_files set_opened_for_writing].
    rewrite dict_set_same.
    exists (concat (last_n MAX_HISTORY_LINES (readlines t))).
    split; [reflexivity|].
    split; [now rewrite concat_encodable, kept_encodable|].
    split; [now apply universal_newlines_id|].
    repeat split.
  - cbn [snd files set_files set_opened_for_writing]. rewrite dict_set_same.
    exists (old ++ LF :: response).
    split; [reflexivity|]. split; [exact Hnew|]. repeat split.
Qed.

(** What [get_history] returns after [save_history], when the file system
    lets them work. *)
Lemma save_then_get_history (user_key response : pystr) (w : World) :
  usable w (history_path w user_key) ->
  utf8_encodable response = true ->
  fst (get_history user_key (snd (save_history user_key response w))) =
    Return (kept (universal_newlines
                    (dict_get (history_path w user_key) [] (files w) ++
                     LF :: response))).
Proof.
  intros Hu Hresp.
  destruct (save_history_ok user_key response w Hu Hresp)
    as (final & Hf & He & Hr & Hd & Hdirs & Hstat & Ho).
  destruct Hu as (Hs0 & Hd0 & Ho0 & _).
  set (w' := snd (save_history user_key response w)) in *.
  assert (Hp : history_path w' user_key = history_path w user_key)
    by (unfold history_path; now rewrite Hd).
  rewrite (get_history_of user_key final w').
  - cbn [fst]. now rewrite Hr.
  - now rewrite Hp.
  - now rewrite Hp, Hstat.
  - now rewrite Hp, Hdirs.
  - rewrite Hp, Ho. apply Ho0.
  - exact He.
Qed.

(** X4.  When the file system lets it, the history that [get_history]
    returns after [save_history] has at most [MAX_HISTORY_LINES] lines. *)
Theorem save_history_bounds_history (user_key response : pystr) (w : World) :
  usable w (history_path w user_key) ->
  utf8_encodable response = true ->
  exists h,
    fst (get_history user_key (snd (save_history user_key response w))) = Return h /\
    length (readlines h) <= MAX_HISTORY_LINES.
Proof.
  intros Hu Hresp. rewrite (save_then_get_history user_key response w Hu Hresp).
  eexists. split; [reflexivity|]. apply kept_length.
Qed.

(** X5.  When the file system lets it, the history that [get_history]
    returns after [save_history] ends with the response, if the response
    has no carriage return and fewer than [MAX_HISTORY_LINES] line
    feeds. *)
Theorem save_history_keeps_response (user_key response : pystr) (w : World) :
  usable w (history_path w user_key) ->
  utf8_encodable response = true ->
  ~ In CR response ->
  count_char LF response < MAX_HISTORY_LINES ->
  exists x,
    fst (get_history user_key (snd (save_history user_key response w))) =
      Return (x ++ response).
Proof.
  intros Hu Hresp Hcr Hn.
  rewrite (save_then_get_history user_key response w Hu Hresp).
  destruct (universal_newlines_after_lf
              (dict_get (history_path w user_key) [] (files w))) as [y Hy].
  rewrite Hy, (universal_newlines_id response Hcr).
  destruct (kept_suffix y response Hn) as [x ->]. now exists x.
Qed.


(** The ways [clear_history] ends. *)
Lemma clear_history_run (user_key : pystr) (w : World) :
  clear_history user_key w =
    let path := history_path w user_key in
    if stat_error w path then (Return true, w)
    else if dirs w path then (Return false, w)
    else
      match files w path with
      | None => (Return true, w)
      | Some _ =>
          match remove_error w path with
          | Some _ => (Return false, w)
          | None => (Return true, set_files (dict_del path (files w)) w)
          end
      end.
Proof.
  history_start. unfold dict_in, remove. cbv zeta.
  destruct (stat_error w (history_path w user_key)); [reflexivity|].
  destruct (dirs w (history_path w user_key)) eqn:Hd;
    [cbn [negb andb orb]; cbv beta iota; now rewrite Hd|].
  cbn [negb andb orb].
  destruct (files w (history_path w user_key)) eqn:Ef; [|reflexivity].
  cbv beta iota. rewrite Hd, Ef.
  now destruct (remove_error w (history_path w user_key)).
Qed.

(** X7.  [clear_history] returns; when it answers [True] the history of
    the user is empty afterwards, when it answers [False] no file has
    changed. *)
Theorem clear_history_then_get_history (user_key : pystr) (w : World) :
  exists ok,
    fst (clear_history user_key w) = Return ok /\
    (ok = true ->
     fst (get_history user_key (snd (clear_history user_key w))) = Return []) /\
    (ok = false -> snd (clear_history user_key w) = w).
Proof.
  rewrite clear_history_run. cbv zeta. set (p := history_path w user_key).
  destruct (stat_error w p) eqn:Hs.
  { exists true. split; [reflexivity|]. split; [|discriminate].
    intros _. cbn [snd]. history_start. fold p. now rewrite Hs. }
  destruct (dirs w p) eqn:Hd.
  { exists false. split; [reflexivity|]. split; [discriminate|reflexivity]. }
  destruct (files w p) as [text|] eqn:Ef.
  - destruct (remove_error w p).
    + exists false. split; [reflexivity|]. split; [discriminate|reflexivity].
    + exists true. split; [reflexivity|]. split; [|discriminate].
      intros _. cbn [snd]. history_start.
      change (history_path (set_files (dict_del p (files w)) w) user_key) with p.
      unfold dict_in. cbn [files set_files stat_error dirs]. fold p.
      now rewrite Hs, Hd, dict_del_same.
  - exists true. split; [reflexivity|]. split; [|discriminate].
    intros _. cbn [snd]. history_start. fold p. unfold dict_in.
    now rewrite Hs, Hd, Ef.
Qed.

(** X8.  Two user keys that do not start with a slash have different
    history files. *)
Theorem history_path_injective (w : World) (k1 k2 : pystr) :
  startswith [47%N] k1 = false ->
  startswith [47%N] k2 = false ->
  history_path w k1 = history_path w k2 ->
  k1 = k2.
Proof.
  intros H1 H2. unfold history_path, os_path_join.
  assert (Hs : forall k, startswith [47%N] k = false ->
                         startswith [47%N] (k ++ u ".txt") = false).
  { intros [|c k] Hk; [reflexivity|exact Hk]. }
  rewrite (Hs k1 H1), (Hs k2 H2).
  assert (Hinj : forall a, a ++ k1 ++ u ".txt" = a ++ k2 ++ u ".txt" -> k1 = k2).
  { intros a E. apply app_inv_head in E. now apply app_inv_tail in E. }
  destruct (history_dir w) as [|c d]; [apply (Hinj [])|].
  destruct (ends_with_char 47%N (c :: d)); intros E.
  - exact (Hinj (c :: d) E).
  - apply (Hinj ((c :: d) ++ [47%N])). now rewrite <- !app_assoc.
Qed.

(** X9.  For a user key that starts with a slash, [os.path.join] drops
    the history directory: the history path is the key with [.txt] behind
    it, the same for every history directory. *)
Theorem absolute_key_ignores_history_dir (w : World) (k : pystr) :
  startswith [47%N] k = true ->
  history_path w k = k ++ u ".txt" /\
  forall w', history_path w' k = history_path w k.
Proof.
  intros H.
  assert (E : forall w0, history_path w0 k = k ++ u ".txt").
  { intros w0. unfold history_path, os_path_join.
    destruct k as [|c k]; [discriminate|].
    change (startswith [47%N] ((c :: k) ++ u ".txt"))
      with (startswith [47%N] (c :: k)).
    now rewrite H. }
  split; [apply E|]. intros w'. now rewrite !E.
Qed.

Context {U : Unicode}.

(** X10.  [get_history_length] is 0 exactly when the history is empty: a
    history of blank characters only counts as one line. *)
Theorem get_history_length_zero_iff_empty (user_key : pystr) (w : World) :
  exists n h,
    fst (get_history_length user_key w) = Return n /\
    fst (get_history user_key w) = Return h /\
    (n = 0 <-> h = []).
Proof.
  destruct (get_history_run user_key w) as [h Hh].
  unfold get_history_length, bind. rewrite Hh.
  destruct h as [|c h].
  - exists 0, []. repeat split.
  - exists (length (split_lf (strip (c :: h)))), (c :: h). repeat split.
    + intros E. pose proof (split_lf_length (strip (c :: h))). lia.
    + discriminate.
Qed.

End HistoryFacts.

(* ================================================================== *)
(** * More on the execution gateway *)
(* ================================================================== *)

Section GatewayMore.
Import ChatExecutor.
Context {U : Unicode}.

Ltac chat_start :=
  cbv [execute_chat try_except bind _call_ai gets ret].

Ltac name_cleaned stdout :=
  change (strip (re_sub oauth2_pattern
            (strip (re_sub EXECUTION_INFO_PATTERN (strip stdout)))))
    with (clean (strip stdout)).

(** [_log_error] returns.  What it appends to the log are the first lines
    of one block: all four, none, or those written before a write failed.
    It appends nothing when no path is configured, and the header at most
    when the head of the prompt cannot be encoded. *)
Lemma _log_error_cases (kind msg : pystr) (user_id : Z) (prompt : pystr) (w : World) :
  exists new,
    _log_error kind msg user_id prompt w =
      (Return tt, set_debug_log (debug_log w ++ new) w) /\
    (exists n, new = firstn n (log_block w kind msg user_id prompt) /\
               (utf8_encodable (firstn 200 prompt) = false -> n <= 1)) /\
    (DEBUG_LOG_PATH w = None -> new = []).
Proof.
  assert (Hnone : exists new,
            (Return tt, w) = (Return tt, set_debug_log (debug_log w ++ new) w) /\
            (exists n, new = firstn n (log_block w kind msg user_id prompt) /\
                       (utf8_encodable (firstn 200 prompt) = false -> n <= 1)) /\
            new = []).
  { exists []. rewrite app_nil_r, set_debug_log_same.
    split; [reflexivity|]. split; [|reflexivity].
    exists 0. split; [reflexivity|lia]. }
  destruct Hnone as (new0 & E0 & Hn0 & Hnil).
  unfold _log_error, bind, gets, try_except, open_log, write_log, ret.
  destruct (DEBUG_LOG_PATH w) as [[|c p]|];
    [exists new0; auto| |exists new0; auto].
  destruct (disk_ok w);
    [|exists new0; split; [exact E0|]; split; [exact Hn0|discriminate]].
  destruct (utf8_encodable (line_text (Header (clock w) kind user_id)));
    [|exists new0; split; [exact E0|]; split; [exact Hn0|discriminate]].
  cbn [debug_log set_debug_log].
  change (line_text (PromptLine (firstn 200 prompt))) with (firstn 200 prompt).
  destruct (utf8_encodable (firstn 200 prompt)).
  - change (line_text (ErrorLine msg)) with msg.
    destruct (utf8_encodable msg).
    + change (utf8_encodable (line_text Separator)) with true. cbv iota.
      exists (log_block w kind msg user_id prompt).
      split; [unfold set_debug_log, log_block; cbn; now rewrite <- !app_assoc|].
      split; [|discriminate].
      exists 4. split; [reflexivity|discriminate].
    + exists (firstn 2 (log_block w kind msg user_id prompt)).
      split; [unfold set_debug_log, log_block; cbn; now rewrite <- !app_assoc|].
      split; [|discriminate].
      exists 2. split; [reflexivity|discriminate].
  - exists (firstn 1 (log_block w kind msg user_id prompt)).
    split; [reflexivity|]. split; [|discriminate].
    exists 1. split; [reflexivity|lia].
Qed.

Ltac log_case :=
  cbv beta iota;
  match goal with
  | |- context [_log_error ?k ?m ?i ?p ?w] =>
      let new := fresh "new" in
      let E := fresh "E" in
      let Hn := fresh "Hn" in
      let Hoff := fresh "Hoff" in
      destruct (_log_error_cases k m i p w) as (new & E & Hn & Hoff); rewrite E
  end.

(** What [execute_chat] does to the world: nothing but appending to the
    log what one call of [_log_error] appends. *)
Lemma execute_chat_log (prompt : pystr) (user_id : Z) (w : World) :
  exists s new,
    execute_chat prompt user_id w =
      (Return s, set_debug_log (debug_log w ++ new) w) /\
    s <> [] /\
    (exists kind msg n,
       new = firstn n (log_block w kind msg user_id prompt) /\
       (utf8_encodable (firstn 200 prompt) = false -> n <= 1)) /\
    (DEBUG_LOG_PATH w = None -> new = []).
Proof.
  chat_start.
  destruct (subprocess_run w (argv prompt)) as [stdout|e].
  - name_cleaned stdout.
    destruct (has_error_keyword (clean (strip stdout))).
    { log_case. exists (friendly_response 0), new.
      split; [reflexivity|]. split; [discriminate|].
      split; [destruct Hn as (n & Hn); eauto|exact Hoff]. }
    destruct (clean (strip stdout)) as [|c t].
    { log_case. exists (friendly_response 1), new.
      split; [reflexivity|]. split; [discriminate|].
      split; [destruct Hn as (n & Hn); eauto|exact Hoff]. }
    destruct (length (c :: t) <? 5).
    { log_case. exists (friendly_response 2), new.
      split; [reflexivity|]. split; [discriminate|].
      split; [destruct Hn as (n & Hn); eauto|exact Hoff]. }
    exists (c :: t), []. rewrite app_nil_r, set_debug_log_same.
    split; [reflexivity|]. split; [discriminate|].
    split; [|reflexivity].
    exists [], [], 0. split; [reflexivity|lia].
  - destruct (exn_cls e); log_case;
      match goal with
      | |- exists _ _, (Return ?s, _) = _ /\ _ => exists s, new
      end;
      (split; [reflexivity|]; split; [discriminate|];
       split; [destruct Hn as (n & Hn); eauto|exact Hoff]).
Qed.

(** What [execute_chat] returns when the call of the command raises. *)
Lemma execute_chat_raise (prompt : pystr) (user_id : Z) (w : World) (e : exn) :
  subprocess_run w (argv prompt) = Raise e ->
  exists l, execute_chat prompt user_id w = (Return (sync_fallback e), set_debug_log l w).
Proof.
  intros Hrun. chat_start. rewrite Hrun. unfold sync_fallback.
  destruct (exn_cls e); log_case; eauto.
Qed.


(** Characters that do not open a marker are copied. *)
Lemma pattern_needs_marker (c : codepoint) (s : pystr) :
  c <> LT -> EXECUTION_INFO_PATTERN (c :: s) = None.
Proof.
  intros Hc. unfold EXECUTION_INFO_PATTERN, EXECUTION_INFO_OPEN.
  cbn [startswith]. destruct (N.eqb_spec 60 c) as [E|_]; [|reflexivity].
  exfalso. apply Hc. now rewrite <- E.
Qed.

Lemma re_sub_keeps_prefix (pre x : pystr) :
  ~ In LT pre ->
  re_sub_from EXECUTION_INFO_PATTERN 0 (pre ++ x) =
    pre ++ re_sub_from EXECUTION_INFO_PATTERN 0 x.
Proof.
  induction pre as [|c pre IH]; intros Hn; [reflexivity|].
  change ((c :: pre) ++ x) with (c :: (pre ++ x)).
  cbn [re_sub_from]. rewrite pattern_needs_marker.
  - rewrite IH; [reflexivity|]. intros Hin. apply Hn. now right.
  - intros ->. apply Hn. now left.
Qed.

Lemma startswith_app (p x : pystr) : startswith p (p ++ x) = true.
Proof.
  induction p as [|c p IH]; [now destruct x|].
  simpl startswith. cbn [app]. cbn [startswith]. now rewrite N.eqb_refl, IH.
Qed.

Lemma find_close (body rest : pystr) :
  ~ In LT body ->
  find EXECUTION_INFO_CLOSE (body ++ EXECUTION_INFO_CLOSE ++ rest) =
    Some (length body).
Proof.
  induction body as [|c body IH]; intros Hn.
  - cbn [app length].
    pose proof (startswith_app EXECUTION_INFO_CLOSE rest) as Hs.
    destruct (EXECUTION_INFO_CLOSE ++ rest); cbn [find]; now rewrite Hs.
  - change ((c :: body) ++ EXECUTION_INFO_CLOSE ++ rest)
      with (c :: (body ++ EXECUTION_INFO_CLOSE ++ rest)).
    cbn [find].
    assert (Hc : startswith EXECUTION_INFO_CLOSE
                   (c :: body ++ EXECUTION_INFO_CLOSE ++ rest) = false).
    { unfold EXECUTION_INFO_CLOSE at 1. cbn [startswith].
      destruct (N.eqb_spec 60 c) as [E|_]; [|reflexivity].
      exfalso. apply Hn. left. now rewrite <- E. }
    rewrite Hc, IH; [reflexivity|]. intros Hin. apply Hn. now right.
Qed.

Lemma re_sub_skips (pat : pattern) (m rest : pystr) :
  re_sub_from pat (length m) (m ++ rest) = re_sub_from pat 0 rest.
Proof.
  induction m as [|c m IH]; [reflexivity|]. exact IH.
Qed.

(** One well-formed block is cut out, and the scan goes on behind it. *)
Lemma re_sub_cuts_block (body rest : pystr) :
  ~ In LT body ->
  re_sub_from EXECUTION_INFO_PATTERN 0
    (EXECUTION_INFO_OPEN ++ body ++ EXECUTION_INFO_CLOSE ++ rest) =
  re_sub_from EXECUTION_INFO_PATTERN 0 rest.
Proof.
  intros Hn.
  assert (Hm : EXECUTION_INFO_PATTERN
                 (EXECUTION_INFO_OPEN ++ body ++ EXECUTION_INFO_CLOSE ++ rest) =
               Some (length EXECUTION_INFO_OPEN + length body +
                     length EXECUTION_INFO_CLOSE)).
  { unfold EXECUTION_INFO_PATTERN.
    rewrite startswith_app, skipn_app, skipn_all, Nat.sub_diag.
    cbn [app skipn]. now rewrite find_close. }
  destruct EXECUTION_INFO_OPEN as [|c open'] eqn:Eo; [discriminate Eo|].
  change ((c :: open') ++ body ++ EXECUTION_INFO_CLOSE ++ rest)
    with (c :: (open' ++ body ++ EXECUTION_INFO_CLOSE ++ rest)) in *.
  cbn [re_sub_from]. rewrite Hm. cbn [length Nat.add].
  replace (open' ++ body ++ EXECUTION_INFO_CLOSE ++ rest)
    with ((open' ++ body ++ EXECUTION_INFO_CLOSE) ++ rest)
    by now rewrite <- !app_assoc.
  replace (length open' + length body + length EXECUTION_INFO_CLOSE)
    with (length (open' ++ body ++ EXECUTION_INFO_CLOSE))
    by (rewrite !length_app; lia).
  apply re_sub_skips.
Qed.

(** X12.  A metadata block in the output makes no difference to the cleaned
    text, wherever it stands, when there is no ['<'] before the block and
    none inside it. *)
Theorem clean_ignores_metadata_block (pre body rest : pystr) :
  ~ In LT pre ->
  ~ In LT body ->
  clean (pre ++ EXECUTION_INFO_OPEN ++ body ++ EXECUTION_INFO_CLOSE ++ rest) =
    clean (pre ++ rest).
Proof.
  intros Hpre Hbody. unfold clean, re_sub.
  rewrite (re_sub_keeps_prefix pre _ Hpre), (re_sub_cuts_block body rest Hbody).
  now rewrite (re_sub_keeps_prefix pre rest Hpre).
Qed.

(** X13.  Once the pool is shut down, [execute_chat_async] raises the
    [RuntimeError] of [submit] to its caller, and the callback is not
    invoked. *)
Theorem shutdown_then_async_raises
  (prompt : pystr) (user_id : Z) (callback : Callback) (w : World) :
  exists e,
    fst ((shutdown ;;; execute_chat_async prompt user_id callback) w) = Raise e /\
    exn_cls e = RuntimeError /\
    calls (snd ((shutdown ;;; execute_chat_async prompt user_id callback) w)) =
      calls w.
Proof.
  cbv [shutdown execute_chat_async submit bind modify].
  cbn [pool_shutdown set_pool_shutdown].
  eexists. split; [reflexivity|]. split; reflexivity.
Qed.

End GatewayMore.

(* ================================================================== *)
(** * The configuration *)
(* ================================================================== *)

Section ConfigFacts.
Import ChatConfig.
Context {U : Unicode}.

Lemma call_setups_imports (calls : list (option pystr * option pystr * option pystr))
  (p : Package) :
  executor_DEBUG_LOG_PATH (call_setups calls p) = executor_DEBUG_LOG_PATH p /\
  executor_AI_WORK_DIR (call_setups calls p) = executor_AI_WORK_DIR p /\
  history_HISTORY_DIR (call_setups calls p) = history_HISTORY_DIR p.
Proof.
  revert p. induction calls as [|args calls IH]; intros p; [auto|].
  change (call_setups (args :: calls) p)
    with (call_setups calls (call_setup args p)).
  destruct (IH (call_setup args p)) as (-> & -> & ->).
  destruct args as [[h d] x]. auto.
Qed.

(** X14.  [setup] assigns the globals of [chat_config] only.  The names
    that [chat_executor] and [chat_history] imported keep their values:
    after any calls of [setup], a [ChatHistory()] still uses the directory
    inside the package, and [execute_chat] still writes no diagnostic
    log. *)
Theorem setup_does_not_reach_the_importers
  (package_dir : pystr) (calls : list (option pystr * option pystr * option pystr))
  (prompt : pystr) (user_id : Z) (w : ChatExecutor.World) :
  history_dir_of (call_setups calls (import_package package_dir)) None =
    os_path_join package_dir (u ".chat_history") /\
  snd (ChatExecutor.execute_chat prompt user_id
         (executor_world (call_setups calls (import_package package_dir)) w)) =
    executor_world (call_setups calls (import_package package_dir)) w.
Proof.
  destruct (call_setups_imports calls (import_package package_dir))
    as (Hd & _ & Hh).
  split.
  - unfold history_dir_of. cbn [or_default]. rewrite Hh. reflexivity.
  - set (w' := executor_world _ w).
    destruct (execute_chat_log prompt user_id w') as (s & new & E & _ & _ & Hoff).
    rewrite E. cbn [snd]. rewrite Hoff.
    + now rewrite app_nil_r, set_debug_log_same.
    + unfold w', executor_world. cbn [ChatExecutor.DEBUG_LOG_PATH].
      rewrite Hd. reflexivity.
Qed.

End ConfigFacts.

(* ================================================================== *)
(** * More on the session client *)
(* ================================================================== *)

Section SessionMore.
Import WSClient.

Ltac run_handler :=
  cbv [apply_event connect_attempt _on_open _on_error _on_close disconnect
       set_ws set_connected set_should_stop print call_if_set lift
       bind gets modify ret];
  cbn [self set_self set_stdout ws connected _should_stop ws_url
       on_connect on_disconnect on_error sock_close snd fst].

(** No event clears the stop flag. *)
Lemma apply_event_keeps_stop (ev : event) (w : World) :
  _should_stop (self w) = true -> _should_stop (self (apply_event ev w)) = true.
Proof.
  intros Hs. destruct ev as [h|h|e|code msg|]; run_handler.
  - now rewrite Hs.
  - now destruct (on_connect w) as [[[]|e]|].
  - destruct (on_error w) as [f|]; [now destruct (f e) as [[]|e']|exact Hs].
  - now destruct (on_disconnect w) as [[[]|e]|].
  - destruct (ws (self w)) as [h|]; cbn; [|reflexivity].
    now destruct (sock_close w h) as [[]|e].
Qed.

Lemma run_events_keep_stop (evs : list event) (w : World) :
  _should_stop (self w) = true -> _should_stop (self (run_events evs w)) = true.
Proof.
  revert w. induction evs as [|ev evs IH]; intros w Hs; [exact Hs|].
  apply IH, apply_event_keeps_stop, Hs.
Qed.

(** [disconnect] sets the stop flag, whether closing the socket works or
    not. *)
Lemma disconnect_sets_stop (w : World) :
  _should_stop (self (apply_event EvDisconnect w)) = true.
Proof.
  run_handler. destruct (ws (self w)) as [h|]; cbn; [|reflexivity].
  now destruct (sock_close w h) as [[]|e].
Qed.

Lemma run_events_app (evs1 evs2 : list event) (w : World) :
  run_events (evs1 ++ evs2) w = run_events evs2 (run_events evs1 w).
Proof. apply fold_left_app. Qed.

(** X15.  The stop flag is never cleared: once [disconnect] has been
    called, whatever happens before and afterwards, a turn of the loop in
    [connect] makes no new attempt and leaves the client as it is. *)
Theorem stop_is_permanent (before after : list event) (h : handle) (w : World) :
  apply_event (EvAttempt h) (run_events (before ++ EvDisconnect :: after) w) =
    run_events (before ++ EvDisconnect :: after) w.
Proof.
  rewrite run_events_app.
  change (run_events (EvDisconnect :: after) (run_events before w))
    with (run_events after (apply_event EvDisconnect (run_events before w))).
  set (w1 := apply_event EvDisconnect (run_events before w)).
  pose proof (run_events_keep_stop after w1 (disconnect_sets_stop _)) as Hs.
  cbv [apply_event connect_attempt bind gets ret]. now rewrite Hs.
Qed.

Context {J : JsonCodec}.

Ltac send_start :=
  cbv [send is_connected lock_released print bind gets modify ret try_except lift].

(** What [send] does to the wire: nothing, or one frame with the
    serialised data; nothing when it answers [False]. *)
Lemma send_frames (data : json) (w : World) :
  exists ok w',
    send data w = (Return ok, w') /\
    (wire w' = wire w \/ exists h, wire w' = wire w ++ [(h, json_dumps data)]) /\
    (ok = false -> wire w' = wire w).
Proof.
  send_start. destruct (at_lock_transport w) as [Ew Es].
  destruct (connected (self w)); cbn [negb].
  - destruct (ws (self (at_lock w))) as [h|].
    + rewrite Es.
      destruct (sock_send w h (json_dumps data)) as [[]|e]; cbn [fst snd].
      * eexists _, _. split; [reflexivity|]. split; [|discriminate].
        right. exists h. cbn [wire set_wire]. now rewrite Ew.
      * eexists _, _. split; [reflexivity|].
        cbn [wire set_stdout]. split; [left|intros _]; exact Ew.
    + eexists _, _. split; [reflexivity|]. split; [left; exact Ew|discriminate].
  - eexists _, _. split; [reflexivity|]. split; [left|intros _]; reflexivity.
Qed.

(** X16.  [send] returns whatever the state of the client and whatever the
    transport does.  It writes nothing or one frame, the serialised data,
    and nothing when it answers [False]. *)
Theorem send_returns_and_writes_at_most_once (data : json) (w : World) :
  exists ok new,
    fst (send data w) = Return ok /\
    wire (snd (send data w)) = wire w ++ new /\
    (new = [] \/ exists h, new = [(h, json_dumps data)]) /\
    (ok = false -> new = []).
Proof.
  destruct (send_frames data w) as (ok & w' & E & [Hw|[h Hw]] & Hf);
    rewrite E; cbn [fst snd].
  - exists ok, []. rewrite app_nil_r. repeat split; auto.
  - exists ok, [(h, json_dumps data)].
    split; [reflexivity|]. split; [exact Hw|]. split; [right; now exists h|].
    intros Hok. specialize (Hf Hok). rewrite Hw in Hf.
    apply (f_equal (@length _)) in Hf. rewrite length_app in Hf. simpl in Hf. lia.
Qed.

(** X17.  After a [disconnect] that has returned, [send] answers [False]
    and writes nothing. *)
Theorem disconnect_then_send (data : json) (w : World) :
  fst (disconnect w) = Return tt ->
  fst (send data (snd (disconnect w))) = Return false /\
  wire (snd (send data (snd (disconnect w)))) = wire w.
Proof.
  intros Hd.
  assert (Hc : connected (self (snd (disconnect w))) = false /\
               wire (snd (disconnect w)) = wire w).
  { revert Hd.
    cbv [disconnect set_connected set_should_stop print lift bind gets modify ret].
    cbn [self set_self ws connected _should_stop sock_close].
    destruct (ws (self w)) as [h|]; cbn; [|auto].
    destruct (sock_close w h) as [[]|e]; cbn; [auto|discriminate]. }
  destruct Hc as [Hc Hw].
  send_start. rewrite Hc. cbn [negb fst snd wire set_stdout].
  split; [reflexivity|exact Hw].
Qed.

End SessionMore.

(* ================================================================== *)
(** * The chat bot *)
(* ================================================================== *)

Section BotFacts.
Import ChatBot.
Context {U : Unicode}.
Variable prompts : pystr -> outcome pystr.
Variable hash : pystr -> Z.

Lemma no_cr_check (s : pystr) :
  forallb (fun c => negb (c =? CR)%N) s = true -> ~ In CR s.
Proof.
  intros H Hin. rewrite forallb_forall in H. specialize (H CR Hin).
  now rewrite N.eqb_refl in H.
Qed.

Lemma no_cr_app (a b : pystr) : ~ In CR a -> ~ In CR b -> ~ In CR (a ++ b).
Proof. intros Ha Hb Hin. apply in_app_or in Hin. tauto. Qed.

Lemma count_char_app (c : codepoint) (a b : pystr) :
  count_char c (a ++ b) = count_char c a + count_char c b.
Proof. unfold count_char. now rewrite filter_app, length_app. Qed.

(** [save_history] returns. *)
Lemma save_history_returns (user_key response : pystr) (w : ChatHistory.World) :
  exists w', ChatHistory.save_history user_key response w = (Return tt, w').
Proof.
  cbv [ChatHistory.save_history ChatHistory.history_file try_except bind gets ret
       ChatHistory.print modify].
  match goal with
  | |- exists _, (let (_, _) := ?body in _) = _ => destruct body as [[[]|e] w1]
  end; eauto.
Qed.

(** The history that [get_history] returns after [save_history] ends with
    the last part of the response, if that part stands behind a line feed,
    has no carriage return and fewer than [MAX_HISTORY_LINES] line
    feeds. *)
Lemma save_history_keeps_tail
  (user_key head tail : pystr) (w : ChatHistory.World) :
  ChatHistory.usable w (ChatHistory.history_path w user_key) ->
  utf8_encodable (head ++ LF :: tail) = true ->
  ~ In CR tail ->
  count_char LF tail < ChatHistory.MAX_HISTORY_LINES ->
  exists x,
    fst (ChatHistory.get_history user_key
           (snd (ChatHistory.save_history user_key (head ++ LF :: tail) w))) =
      Return (x ++ tail).
Proof.
  intros Hu Hresp Hcr Hn.
  rewrite (save_then_get_history user_key (head ++ LF :: tail) w Hu Hresp).
  set (old := dict_get (ChatHistory.history_path w user_key) []
                (ChatHistory.files w)).
  destruct (universal_newlines_after_lf (old ++ LF :: head)) as [y Hy].
  replace (old ++ LF :: head ++ LF :: tail)
    with ((old ++ LF :: head) ++ LF :: tail)
    by now rewrite <- app_assoc.
  rewrite Hy, (universal_newlines_id tail Hcr).
  destruct (kept_suffix y tail Hn) as [x ->]. now exists x.
Qed.

(** The steps of [chat] up to the answer of the executor. *)
Lemma chat_run (message user_id : pystr) (mode : option pystr) (b : Bot) :
  (forall m, exists p, prompts m = Return p) ->
  exists full_prompt s w,
    ChatExecutor.execute_chat full_prompt (hash user_id) (executor b) =
      (Return s, w) /\
    s <> [] /\
    chat prompts hash message user_id mode b =
      (Return s,
       {| executor := w;
          history := snd (ChatHistory.save_history user_id
                            (history_entry message s) (history b));
          modes := modes b |}).
Proof.
  intros Hp.
  set (m := match mode with
            | None => ChatModes.get_mode user_id (modes b)
            | Some m => m
            end).
  destruct (Hp m) as [p Hm].
  destruct (get_history_run user_id (history b)) as [h Hh].
  set (full_prompt := match h with
                      | _ :: _ => prompt_with_history p h message
                      | [] => prompt_without_history p message
                      end).
  destruct (execute_chat_log full_prompt (hash user_id) (executor b))
    as (s & new & E & Hne & _).
  exists full_prompt, s. eexists. split; [exact E|]. split; [exact Hne|].
  destruct (save_history_returns user_id (history_entry message s) (history b))
    as [w' Hs].
  unfold chat, bind, lift, in_history, in_executor, gets, ret.
  destruct mode as [m0|]; cbv beta iota; fold m; rewrite Hm, Hh; cbv beta iota;
    cbn [history executor modes]; fold full_prompt; rewrite E; cbv beta iota;
    (destruct s as [|c s]; [congruence|]); cbn [history executor modes];
    rewrite Hs; reflexivity.
Qed.

(** X18.  When the prompt of every mode can be looked up, [chat] returns a
    string that is not empty and raises nothing, whatever the backend and
    the file system do. *)
Theorem chat_always_answers (message user_id : pystr) (mode : option pystr) (b : Bot) :
  (forall m, exists p, prompts m = Return p) ->
  exists s b', chat prompts hash message user_id mode b = (Return s, b') /\ s <> [].
Proof.
  intros Hp.
  destruct (chat_run message user_id mode b Hp) as (fp & s & w & _ & Hne & E).
  rewrite E. eauto.
Qed.

(** X19.  When the file system lets it, [chat] leaves its answer in the
    history of the user: the history ends with ["AI: "] and the answer, if
    the answer has no carriage return and fewer than [MAX_HISTORY_LINES]
    line feeds. *)
Theorem chat_records_its_answer (message user_id : pystr) (mode : option pystr) (b : Bot) :
  (forall m, exists p, prompts m = Return p) ->
  ChatHistory.usable (history b) (ChatHistory.history_path (history b) user_id) ->
  utf8_encodable message = true ->
  exists s,
    fst (chat prompts hash message user_id mode b) = Return s /\
    (utf8_encodable s = true ->
     ~ In CR s ->
     count_char LF s < ChatHistory.MAX_HISTORY_LINES ->
     exists x,
       fst (ChatHistory.get_history user_id
              (history (snd (chat prompts hash message user_id mode b)))) =
         Return (x ++ u "AI: " ++ s)).
Proof.
  intros Hp Hu Hmsg.
  destruct (chat_run message user_id mode b Hp) as (fp & s & w & _ & Hne & E).
  exists s. rewrite E. cbn [fst snd history]. split; [reflexivity|].
  intros Hs Hcr Hn.
  unfold history_entry.
  replace (u "用户: " ++ message ++ [LF] ++ u "AI: " ++ s)
    with ((u "用户: " ++ message) ++ LF :: (u "AI: " ++ s))
    by now rewrite <- app_assoc.
  apply save_history_keeps_tail.
  - exact Hu.
  - rewrite !utf8_encodable_app, Hmsg. cbn [utf8_encodable forallb].
    rewrite utf8_encodable_app, Hs. reflexivity.
  - apply no_cr_app; [apply no_cr_check; reflexivity|exact Hcr].
  - rewrite count_char_app.
    change (count_char LF (u "AI: ")) with 0. exact Hn.
Qed.

(** X20.  When the call of the backend raises, the fallback string that
    [chat] returns is left in the history of the user as the answer of the
    AI, if the file system lets it. *)
Theorem chat_records_fallbacks (message user_id : pystr) (mode : option pystr)
  (e : exn) (b : Bot) :
  (forall m, exists p, prompts m = Return p) ->
  (forall argv, ChatExecutor.subprocess_run (executor b) argv = Raise e) ->
  ChatHistory.usable (history b) (ChatHistory.history_path (history b) user_id) ->
  utf8_encodable message = true ->
  fst (chat prompts hash message user_id mode b) = Return (sync_fallback e) /\
  In (sync_fallback e) ChatExecutor.fallback_strings /\
  exists x,
    fst (ChatHistory.get_history user_id
           (history (snd (chat prompts hash message user_id mode b)))) =
      Return (x ++ u "AI: " ++ sync_fallback e).
Proof.
  intros Hp Hrun Hu Hmsg.
  destruct (chat_run message user_id mode b Hp) as (fp & s & w & Es & Hne & E).
  destruct (execute_chat_raise fp (hash user_id) (executor b) e (Hrun _))
    as [l El].
  rewrite El in Es. injection Es as <- _.
  rewrite E. cbn [fst snd history]. split; [reflexivity|].
  assert (Hfb : In (sync_fallback e) ChatExecutor.fallback_strings /\
                utf8_encodable (sync_fallback e) = true /\
                ~ In CR (sync_fallback e) /\
                count_char LF (sync_fallback e) = 0).
  { unfold sync_fallback.
    destruct (exn_cls e);
      (split; [vm_compute; tauto|];
       split; [reflexivity|];
       split; [apply no_cr_check; reflexivity|reflexivity]). }
  destruct Hfb as (Hin & Henc & Hcr & Hn).
  split; [exact Hin|].
  unfold history_entry.
  replace (u "用户: " ++ message ++ [LF] ++ u "AI: " ++ sync_fallback e)
    with ((u "用户: " ++ message) ++ LF :: (u "AI: " ++ sync_fallback e))
    by now rewrite <- app_assoc.
  apply save_history_keeps_tail.
  - exact Hu.
  - rewrite !utf8_encodable_app, Hmsg. cbn [utf8_encodable forallb].
    rewrite utf8_encodable_app, Henc. reflexivity.
  - apply no_cr_app; [apply no_cr_check; reflexivity|exact Hcr].
  - rewrite count_char_app, Hn.
    change (count_char LF (u "AI: ")) with 0. unfold ChatHistory.MAX_HISTORY_LINES. lia.
Qed.

End BotFacts.

(* ================================================================== *)
(** * The message handler *)
(* ================================================================== *)

Section HandlerFacts.
Import WSClient Run.
Context {U : Unicode} {J : JsonCodec}.
Variable prompts : pystr -> outcome pystr.
Variable hash : pystr -> Z.
Variable repr : json -> pystr.

Lemma get_field (d : list (pystr * json)) (key : pystr) (default : json) :
  get (JDict d) key default = Return (field d key default).
Proof. unfold get, field. now destruct (jlookup key d). Qed.

Ltac handler_start :=
  unfold on_message, bind, Run.lift; rewrite !get_field; cbv beta iota.

(** X21.  The handler leaves everything as it is and returns when the
    event is not a message, when the text of the message does not start
    with a colon, and when nothing but blanks follows the colon. *)
Theorem on_message_ignores (d : list (pystr * json)) (t : pystr) (w : Run.World) :
  is_str (u "message") (field d (u "post_type") JNull) = false \/
  (message_text repr (field d (u "message") (JStr [])) = Return t /\
   (is_chat_message (strip t) = false \/ strip (tl (strip t)) = [])) ->
  on_message prompts hash repr (JDict d) w = (Return tt, w).
Proof.
  intros H. handler_start.
  destruct (is_str (u "message") (field d (u "post_type") JNull)) eqn:Ep;
    cbn [negb]; [|reflexivity].
  destruct H as [H|(Ht & H)]; [discriminate|].
  rewrite Ht. cbv beta iota.
  destruct H as [H|H]; rewrite H; [reflexivity|].
  destruct (is_chat_message (strip t)); reflexivity.
Qed.

(** X22.  The text of a list message is the texts of its text segments,
    one after the other; segments of another type add nothing, whatever
    they carry. *)
Theorem message_text_of_segments (segments : list json) (t : pystr) :
  segments_text segments t ->
  message_text repr (JList segments) = Return t.
Proof.
  intros H. unfold message_text.
  assert (Hp : exists parts, text_parts segments = Return parts /\
                             join parts = Return t).
  { induction H as [|d data s rest t Hty Hdata Htext _ (parts & Hp & Hj)
                    |d ty rest t Hty Hne _ (parts & Hp & Hj)].
    - exists []. split; reflexivity.
    - exists (JStr s :: parts). cbn [text_parts subscript].
      rewrite Hty. cbn [is_str]. unfold str_eqb at 1.
      destruct (str_eq_dec (u "text") (u "text")); [|congruence].
      rewrite Hdata. cbn [subscript]. rewrite Htext, Hp.
      split; [reflexivity|]. cbn [join]. now rewrite Hj.
    - exists parts. cbn [text_parts subscript]. rewrite Hty, Hne.
      split; assumption. }
  destruct Hp as (parts & -> & Hj). exact Hj.
Qed.

(** The list comprehension stops at the first segment without a [type]
    key. *)
Lemma text_parts_malformed
  (bad : list (pystr * json)) (before after : list json) (t : pystr) :
  segments_text before t ->
  jlookup (u "type") bad = None ->
  text_parts (before ++ JDict bad :: after) = Raise (KeyError (u "type")).
Proof.
  intros Hb Hbad.
  induction Hb as [|d0 data s rest t Hty Hdata Htext _ IH
                  |d0 ty rest t Hty Hne _ IH].
  - cbn [app text_parts subscript]. rewrite Hbad. reflexivity.
  - cbn [app text_parts subscript]. rewrite Hty. cbn [is_str].
    unfold str_eqb at 1.
    destruct (str_eq_dec (u "text") (u "text")); [|congruence].
    rewrite Hdata. cbn [subscript]. rewrite Htext, IH. reflexivity.
  - cbn [app text_parts subscript]. rewrite Hty, Hne, IH. reflexivity.
Qed.

(** X23.  A segment without a [type] key makes the handler raise a
    [KeyError]; nothing is sent and nothing is recorded. *)
Theorem on_message_malformed_segment
  (d bad : list (pystr * json)) (before after : list json) (t : pystr) (w : Run.World) :
  is_str (u "message") (field d (u "post_type") JNull) = true ->
  field d (u "message") (JStr []) = JList (before ++ JDict bad :: after) ->
  segments_text before t ->
  jlookup (u "type") bad = None ->
  on_message prompts hash repr (JDict d) w = (Raise (KeyError (u "type")), w).
Proof.
  intros Hp Hm Hb Hbad. handler_start. rewrite Hp, Hm. cbn [negb].
  unfold message_text.
  rewrite (text_parts_malformed bad before after t Hb Hbad). reflexivity.
Qed.


End HandlerFacts.

(* ================================================================== *)
(** * Runs of the mode manager, the history and the bot *)
(* ================================================================== *)

Section BotRuns.
Import ChatHistory.
#[local] Existing Instance basic_unicode.

Lemma set_mode_then_get_mode_witness :
  fst (ChatModes.set_mode (u "alice") (u "coc") ChatModes.new) = true /\
  ChatModes.get_mode (u "alice")
    (snd (ChatModes.set_mode (u "alice") (u "coc") ChatModes.new)) = u "coc" /\
  forall k', k' <> u "alice" ->
    ChatModes.get_mode k'
      (snd (ChatModes.set_mode (u "alice") (u "coc") ChatModes.new)) =
    ChatModes.get_mode k' ChatModes.new.
Proof.
  apply (set_mode_then_get_mode (u "alice") (u "coc") ChatModes.new). reflexivity.
Defined.

(** The history file of [alice] can be used in [world0]. *)
Lemma world0_usable : usable world0 (history_path world0 (u "alice")).
Proof.
  split; [reflexivity|]. split; [reflexivity|]. split; [|reflexivity].
  intros mode. reflexivity.
Defined.

Lemma no_cr_hi : ~ In CR (u "hi").
Proof. intros H. vm_compute in H. intuition discriminate. Defined.

Lemma save_history_bounds_history_witness :
  exists h,
    fst (get_history (u "alice") (snd (save_history (u "alice") (u "hi") world0))) =
      Return h /\
    length (readlines h) <= MAX_HISTORY_LINES.
Proof.
  apply (save_history_bounds_history (u "alice") (u "hi") world0).
  - exact world0_usable.
  - reflexivity.
Defined.

Lemma save_history_keeps_response_witness :
  exists x,
    fst (get_history (u "alice") (snd (save_history (u "alice") (u "hi") world0))) =
      Return (x ++ u "hi").
Proof.
  apply (save_history_keeps_response (u "alice") (u "hi") world0).
  - exact world0_usable.
  - reflexivity.
  - exact no_cr_hi.
  - vm_compute. lia.
Defined.

Lemma history_path_injective_witness : u "alice" = u "alice".
Proof.
  apply (history_path_injective world0 (u "alice") (u "alice")); reflexivity.
Defined.

Lemma absolute_key_ignores_history_dir_witness :
  history_path world0 (u "/etc/motd") = u "/etc/motd" ++ u ".txt" /\
  forall w', history_path w' (u "/etc/motd") = history_path world0 (u "/etc/motd").
Proof.
  apply (absolute_key_ignores_history_dir world0 (u "/etc/motd")). reflexivity.
Defined.

Lemma example_prompts_total : forall m, exists p, ChatBot.example_prompts m = Return p.
Proof. intros m. eexists. reflexivity. Defined.

Lemma bot0_usable run :
  usable (ChatBot.history (ChatBot.bot0 run))
    (history_path (ChatBot.history (ChatBot.bot0 run)) (u "alice")).
Proof. exact world0_usable. Defined.

Lemma chat_always_answers_witness :
  exists s b',
    ChatBot.chat ChatBot.example_prompts ChatBot.example_hash (u "hello") (u "alice") None
      (ChatBot.bot0 ChatExecutor.times_out) = (Return s, b') /\
    s <> [].
Proof.
  apply (chat_always_answers ChatBot.example_prompts ChatBot.example_hash (u "hello") (u "alice")
           None (ChatBot.bot0 ChatExecutor.times_out)).
  exact example_prompts_total.
Defined.

Lemma chat_records_its_answer_witness :
  exists s,
    fst (ChatBot.chat ChatBot.example_prompts ChatBot.example_hash (u "hello") (u "alice") None
           (ChatBot.bot0 (ChatExecutor.answers (u "hello world")))) = Return s.
Proof.
  destruct (chat_records_its_answer ChatBot.example_prompts ChatBot.example_hash
              (u "hello") (u "alice") None
              (ChatBot.bot0 (ChatExecutor.answers (u "hello world")))
              example_prompts_total (bot0_usable _) eq_refl) as [s [Hs _]].
  exists s. exact Hs.
Defined.

Lemma chat_records_fallbacks_witness :
  fst (ChatBot.chat ChatBot.example_prompts ChatBot.example_hash (u "hello") (u "alice") None
         (ChatBot.bot0 ChatExecutor.times_out)) =
    Return (sync_fallback (mk_exn TimeoutExpired (u "timed out after 60 seconds"))).
Proof.
  apply (chat_records_fallbacks ChatBot.example_prompts ChatBot.example_hash
           (u "hello") (u "alice") None
           (mk_exn TimeoutExpired (u "timed out after 60 seconds"))
           (ChatBot.bot0 ChatExecutor.times_out)).
  - exact example_prompts_total.
  - intros argv. reflexivity.
  - exact (bot0_usable _).
  - reflexivity.
Defined.

End BotRuns.

(* ================================================================== *)
(** * Runs of the gateway, the client and the handler *)
(* ================================================================== *)

Section HandlerRuns.
Import WSClient Run.
#[local] Existing Instance basic_unicode.
#[local] Existing Instance example_codec.

Lemma clean_ignores_metadata_block_witness :
  ChatExecutor.clean
    (u "Hello " ++ ChatExecutor.EXECUTION_INFO_OPEN ++ u "tokens: 12" ++
     ChatExecutor.EXECUTION_INFO_CLOSE ++ u " world") =
  ChatExecutor.clean (u "Hello " ++ u " world").
Proof.
  apply (clean_ignores_metadata_block (u "Hello ") (u "tokens: 12") (u " world")).
  - intros H. vm_compute in H. intuition discriminate.
  - intros H. vm_compute in H. intuition discriminate.
Defined.

Lemma callback_invoked_once_when_it_returns_witness :
  exists r,
    ChatExecutor.execute_chat_async (u "hi") 7 ChatExecutor.quiet_callback
      (ChatExecutor.world0 ChatExecutor.times_out ChatExecutor.Completes) =
      (Return tt,
       snd (ChatExecutor.execute_chat_async (u "hi") 7 ChatExecutor.quiet_callback
              (ChatExecutor.world0 ChatExecutor.times_out ChatExecutor.Completes))) /\
    ChatExecutor.calls
      (snd (ChatExecutor.execute_chat_async (u "hi") 7 ChatExecutor.quiet_callback
              (ChatExecutor.world0 ChatExecutor.times_out ChatExecutor.Completes))) =
      ChatExecutor.calls
        (ChatExecutor.world0 ChatExecutor.times_out ChatExecutor.Completes) ++
      [ChatExecutor.call_on
         (ChatExecutor.world0 ChatExecutor.times_out ChatExecutor.Completes) r 7].
Proof.
  apply callback_invoked_once_when_it_returns.
  - reflexivity.
  - intros earlier r. reflexivity.
Defined.

Lemma disconnect_then_send_witness :
  fst (send JNull (snd (disconnect connected_world))) = Return false /\
  wire (snd (send JNull (snd (disconnect connected_world)))) = wire connected_world.
Proof.
  apply (disconnect_then_send JNull connected_world). reflexivity.
Defined.

Lemma on_message_ignores_witness :
  on_message ChatBot.example_prompts ChatBot.example_hash example_repr
    (JDict heartbeat_fields) world0 = (Return tt, world0).
Proof.
  apply (on_message_ignores ChatBot.example_prompts ChatBot.example_hash
           example_repr heartbeat_fields [] world0).
  left. reflexivity.
Defined.

Lemma image_then_text : segments_text [image_segment; hi_segment] (u "hi" ++ []).
Proof.
  unfold image_segment, hi_segment.
  eapply other_segment; [reflexivity|reflexivity|].
  eapply text_segment; [reflexivity|reflexivity|reflexivity|].
  apply no_segment.
Defined.

Lemma message_text_of_segments_witness :
  message_text example_repr (JList [image_segment; hi_segment]) =
    Return (u "hi" ++ []).
Proof.
  apply (message_text_of_segments example_repr [image_segment; hi_segment]
           (u "hi" ++ [])).
  exact image_then_text.
Defined.

Lemma on_message_malformed_segment_witness :
  on_message ChatBot.example_prompts ChatBot.example_hash example_repr
    (JDict malformed_fields) world0 = (Raise (KeyError (u "type")), world0).
Proof.
  apply (on_message_malformed_segment ChatBot.example_prompts ChatBot.example_hash
           example_repr malformed_fields untyped_fields [image_segment] [] []
           world0).
  - reflexivity.
  - reflexivity.
  - unfold image_segment. eapply other_segment; [reflexivity|reflexivity|].
    apply no_segment.
  - reflexivity.
Defined.


End HandlerRuns.
